(** * Server-Jaturaput-Portfolio: the authentication routes of [src/server.js]

    A shallow embedding of the Express application in [src/src/server.js]
    (the revision that boots without a signing secret, lines 192-387 of the
    file) and the properties its specification states about registration,
    login, the JWT guard and the profile lookup.

    The three third-party collaborators are modelled as follows.
    - mongoose / MongoDB: the [User] collection is a list of documents in
      insertion order; [findOne] returns the first match, [save] runs the
      schema's [required] validators and the [unique] indexes and appends.
    - bcrypt: an interface ([PasswordHasher]) with the one law the routes
      rely on, plus the argument checks of the JavaScript wrapper.
    - jsonwebtoken: an interface ([TokenCodec]) for HS256 [sign]/[verify]
      with the idealised laws of a signature scheme.
    Requests are handled one at a time (no interleaving of [await]s). *)

From stdpp Require Import gmap strings list.
From Stdlib Require Import Ascii NArith Lia.

Local Open Scope N_scope.

(** ** JavaScript values that the routes inspect *)

(** A field of [req.body], a header or an environment variable is either
    [undefined] ([None]) or a string. *)
Definition truthy (v : option string) : bool :=
  match v with
  | Some (String _ _) => true
  | _ => false
  end.

(** [!s] for a string [s]: only the empty string is falsy. *)
Definition is_empty (s : string) : bool :=
  match s with
  | EmptyString => true
  | String _ _ => false
  end.

(** [s.split(sep)] for a one-character separator. *)
Fixpoint split (sep : ascii) (s : string) : list string :=
  match s with
  | EmptyString => [EmptyString]
  | String c s' =>
      if bool_decide (c = sep) then EmptyString :: split sep s'
      else match split sep s' with
           | x :: xs => String c x :: xs
           | [] => [String c EmptyString]
           end
  end.

(** No occurrence of the character [c] in [s]. *)
Fixpoint free_of (c : ascii) (s : string) : bool :=
  match s with
  | EmptyString => true
  | String a s' => negb (bool_decide (a = c)) && free_of c s'
  end.

Definition space : ascii := Ascii.ascii_of_nat 32.

(** ** Documents of the [User] model (lines 249-258) *)

(** Identifiers are compared only for equality; any countable type would
    do. *)
Abbreviation ObjectId := N (only parsing).

Record user := mkUser {
  _id : ObjectId;
  username : string;
  password : string;
  email : string
}.

(** [new User({ username, password, email })] before validation: any of the
    three paths may still be [undefined]. *)
Record draft := mkDraft {
  d_username : option string;
  d_password : option string;
  d_email : option string
}.

(** The result of [.select("username email")]: the password path is not
    part of the projected document. *)
Record user_view := mkView {
  v_id : ObjectId;
  v_username : string;
  v_email : string
}.

(** ** The process: environment, store and console *)

Record process_env := mkEnv {
  MONGO_URI : option string;
  SECRET_KEY : option string
}.

(** What a [catch] block can receive. *)
Inductive thrown :=
  | BcryptArgumentsRequired
  | MongooseValidationError
  | MongoDuplicateKey
  | JwtSecretRequired.

Record world := mkWorld {
  db : list user;
  console : list (string * thrown)
}.

(** ** HTTP responses *)

Inductive jvalue :=
  | JString (s : string)
  | JObjectId (i : ObjectId).

Record response := mkResponse {
  status : N;
  body : list (string * jvalue)
}.

(** [res.status(code).json({ error: msg })] *)
Definition json_error (code : N) (msg : string) : response :=
  mkResponse code [("error", JString msg)].

(** [res.status(code).json({ message: msg })] *)
Definition json_message (code : N) (msg : string) : response :=
  mkResponse code [("message", JString msg)].

Record request := mkRequest {
  authorization : option string;
  req_body : gmap string string;
  userID : option ObjectId
}.

(** ** The body of an [async] handler: state and exceptions *)

Definition async (A : Type) : Type := world → (thrown + A) * world.

Definition resolve {A} (a : A) : async A := λ w, (inr a, w).
Definition throw {A} (e : thrown) : async A := λ w, (inl e, w).

Definition await {A B} (m : async A) (k : A → async B) : async B :=
  λ w, match m w with
       | (inr a, w') => k a w'
       | (inl e, w') => (inl e, w')
       end.

Notation "'let!' x ':=' m 'in' k" := (await m (λ x, k))
  (at level 10, x name, m at level 100, k at level 200).

(** [try { body } catch (error) { handler }] around a body that ends in a
    response. *)
Definition try_catch (m : async response) (h : thrown → world → response * world)
  : world → response * world :=
  λ w, match m w with
       | (inr r, w') => (r, w')
       | (inl e, w') => h e w'
       end.

(** [console.error(label, error)] *)
Definition console_error (label : string) (e : thrown) (w : world) : world :=
  mkWorld (db w) (console w ++ [(label, e)]).

(** ** bcrypt *)

(** The hashing primitive behind [bcrypt.hash] and [bcrypt.compare]. The
    salt that [bcrypt.hash(data, rounds)] draws is an explicit argument. *)
Class PasswordHasher := {
  hash_with_salt : string → N → string → string;
  hash_matches : string → string → bool;
  hash_matches_own : ∀ data rounds salt,
    hash_matches data (hash_with_salt data rounds salt) = true;
  hash_not_empty : ∀ data rounds salt,
    hash_with_salt data rounds salt ≠ EmptyString
}.

Module bcrypt.
Section wrapper.
Context `{PasswordHasher}.

(** [bcrypt.hash(data, rounds)]: rejects when [data] is [undefined]. *)
Definition hash (data : option string) (rounds : N) (salt : string)
  : async string :=
  match data with
  | None => throw BcryptArgumentsRequired
  | Some d => resolve (hash_with_salt d rounds salt)
  end.

(** [bcrypt.compare(data, hash)]: rejects when [data] is [undefined]. *)
Definition compare (data : option string) (hashed : string) : async bool :=
  match data with
  | None => throw BcryptArgumentsRequired
  | Some d => resolve (hash_matches d hashed)
  end.
End wrapper.
End bcrypt.

(** ** jsonwebtoken *)

(** The claims that [/login] signs (line 317). *)
Record payload := mkPayload {
  p_userID : ObjectId;
  p_username : string;
  p_email : string
}.

(** What [jwt.verify] hands to its callback: the payload with the [iat]
    and [exp] claims that [jwt.sign] adds. *)
Record decoded := mkDecoded {
  claims : payload;
  iat : N;
  exp : N
}.

(** HS256 signing and verification, times in seconds. [encode p key t ttl]
    is the token signed at time [t] with [expiresIn: ttl]; [decode tok key
    now] is [None] when verification reports an error. The laws are those
    of an ideal signature scheme. *)
Class TokenCodec := {
  encode : payload → string → N → N → string;
  decode : string → string → N → option decoded;
  decode_encode : ∀ p key t ttl now,
    key ≠ EmptyString → now < t + ttl →
    decode (encode p key t ttl) key now = Some (mkDecoded p t (t + ttl));
  decode_other_key : ∀ p key key' t ttl now,
    key ≠ key' → decode (encode p key t ttl) key' now = None;
  decode_expired : ∀ p key key' t ttl now,
    t + ttl ≤ now → decode (encode p key t ttl) key' now = None;
  decode_no_key : ∀ tok now, decode tok EmptyString now = None;
  encode_no_space : ∀ p key t ttl, free_of space (encode p key t ttl) = true
}.

Module jwt.
Section wrapper.
Context `{TokenCodec}.

(** [jwt.sign(payload, secret, { expiresIn })]: throws without a secret. *)
Definition sign (p : payload) (secret : string) (expiresIn : N) (now : N)
  : async string :=
  if is_empty secret then throw JwtSecretRequired
  else resolve (encode p secret now expiresIn).

(** [jwt.verify(token, secret, cb)]: [None] is the [err] branch of the
    callback; an [undefined] token is an error ("jwt must be provided"). *)
Definition verify (token : option string) (secret : string) (now : N)
  : option decoded :=
  match token with
  | None => None
  | Some t => decode t secret now
  end.
End wrapper.
End jwt.

(** One hour, the ["1h"] of line 319. *)
Definition one_hour : N := 3600.

(** ** The [User] model *)

Module User.

(** A query condition [{ path: v }] against a stored string. An
    [undefined] value reaches the server as [null] and matches no
    document, since the schema requires the path of every stored one. *)
Definition path_is (v : option string) (stored : string) : bool :=
  match v with
  | Some s => bool_decide (s = stored)
  | None => false
  end.

(** The first document, in insertion order, that a filter selects. *)
Definition first_match (P : user → bool) (docs : list user) : option user :=
  snd <$> list_find (λ u, P u = true) docs.

(** The filter [{ $or: [{ username }, { email }] }]. *)
Definition either (uname mail : option string) (u : user) : bool :=
  path_is uname (username u) || path_is mail (email u).

(** The filter [{ username }]. *)
Definition named (uname : option string) (u : user) : bool :=
  path_is uname (username u).

(** [User.findOne(filter)] *)
Definition findOne (filter : user → bool) : async (option user) :=
  λ w, (inr (first_match filter (db w)), w).

Definition select_username_email (u : user) : user_view :=
  mkView (_id u) (username u) (email u).

(** [User.findById(id).select("username email")] *)
Definition findById_select (id : option ObjectId) : async (option user_view) :=
  λ w, (inr (select_username_email <$>
               match id with
               | Some i => first_match (λ u, bool_decide (_id u = i)) (db w)
               | None => None
               end), w).

(** The [required: true] validator of a [String] path. *)
Definition required (v : option string) : option string :=
  match v with
  | Some (String c s) => Some (String c s)
  | _ => None
  end.

(** An identifier that no stored document carries. *)
Definition fresh_id (docs : list user) : ObjectId :=
  N.succ (foldr (λ u top, N.max (_id u) top) 0 docs).

(** [doc.save()]: validation, then the insert under the two unique
    indexes. *)
Definition save (d : draft) : async user :=
  λ w,
    match required (d_username d), required (d_password d), required (d_email d) with
    | Some u, Some p, Some m =>
        if existsb (λ x, bool_decide (username x = u) || bool_decide (email x = m)) (db w)
        then (inl MongoDuplicateKey, w)
        else let doc := mkUser (fresh_id (db w)) u p m in
             (inr doc, mkWorld (db w ++ [doc]) (console w))
    | _, _, _ => (inl MongooseValidationError, w)
    end.

End User.

(** ** The application (lines 226-342) *)

(** [const secret_key = process.env.SECRET_KEY || ""] (line 228) *)
Definition secret_key (e : process_env) : string :=
  if truthy (SECRET_KEY e) then default EmptyString (SECRET_KEY e) else EmptyString.

(** Start-up either reaches [app.listen] or dies with an uncaught error. *)
Inductive boot :=
  | Listening (warnings : list string)
  | Crashed (message : string).

(** Lines 228-245: a missing secret or connection string only warns. *)
Definition start (e : process_env) : boot :=
  Listening
    ((if is_empty (secret_key e)
      then ["WARNING: SECRET_KEY is not set. JWT routes will fail without it."]
      else []) ++
     (if truthy (MONGO_URI e)
      then []
      else ["MONGO_URI not set — skipping Mongo connection."])).

Definition handler := request → world → response * world.

Section app.
Context `{PasswordHasher} `{TokenCodec}.
Variable e : process_env.

(** [authenticateJWT] (lines 263-275); [now] is the clock that
    [jwt.verify] reads. *)
Definition authenticateJWT (now : N) (next : handler) : handler :=
  λ req w,
    if is_empty (secret_key e)
    then (json_error 500 "Server misconfigured (no SECRET_KEY)", w)
    else
      let authHeader := authorization req in
      if negb (truthy authHeader)
      then (json_error 401 "Authorization header is missing", w)
      else
        let token := split space (default EmptyString authHeader) !! 1%nat in
        match jwt.verify token (secret_key e) now with
        | None => (json_error 403 "Invalid token", w)
        | Some d =>
            next (mkRequest (authorization req) (req_body req)
                    (Some (p_userID (claims d)))) w
        end.

(** [POST /register] (lines 281-300); [salt] is the salt that
    [bcrypt.hash] draws. *)
Definition post_register (salt : string) : handler :=
  λ req w,
    if negb (truthy (MONGO_URI e))
    then (json_error 503 "Database not configured", w)
    else
      let uname := req_body req !! "username" in
      let pass := req_body req !! "password" in
      let mail := req_body req !! "email" in
      try_catch
        (let! existingUser := User.findOne (User.either uname mail) in
         if existingUser is Some _
         then resolve (json_error 400 "Username or email already exists")
         else
           let! hashedPassword := bcrypt.hash pass 10 salt in
           let! _ := User.save (mkDraft uname (Some hashedPassword) mail) in
           resolve (json_message 201 "User registered successfully"))
        (λ error w',
           (json_error 500 "Failed to register user",
            console_error "Error in /register:" error w'))
        w.

(** [POST /login] (lines 302-327); [now] is the clock that [jwt.sign]
    reads for [iat]. *)
Definition post_login (now : N) : handler :=
  λ req w,
    if negb (truthy (MONGO_URI e))
    then (json_error 503 "Database not configured", w)
    else if is_empty (secret_key e)
    then (json_error 500 "Server misconfigured (no SECRET_KEY)", w)
    else
      let uname := req_body req !! "username" in
      let pass := req_body req !! "password" in
      try_catch
        (let! found := User.findOne (User.named uname) in
         match found with
         | None => resolve (json_error 400 "Invalid credentials")
         | Some u =>
             let! isPasswordValid := bcrypt.compare pass (password u) in
             if negb isPasswordValid
             then resolve (json_error 400 "Invalid credentials")
             else
               let! token :=
                 jwt.sign (mkPayload (_id u) (username u) (email u))
                   (secret_key e) one_hour now in
               resolve (mkResponse 200
                          [("token", JString token); ("userID", JObjectId (_id u))])
         end)
        (λ error w',
           (json_error 500 "Failed to log in",
            console_error "Error in /login:" error w'))
        w.

(** The handler behind the guard of [GET /getUser] (lines 329-342). *)
Definition getUser : handler :=
  λ req w,
    if negb (truthy (MONGO_URI e))
    then (json_error 503 "Database not configured", w)
    else
      try_catch
        (let! found := User.findById_select (userID req) in
         match found with
         | None => resolve (json_error 404 "User not found")
         | Some u =>
             resolve (mkResponse 200
                        [("username", JString (v_username u));
                         ("email", JString (v_email u))])
         end)
        (λ error w',
           (json_error 500 "Failed to fetch user details",
            console_error "Error fetching user details:" error w'))
        w.

(** [app.get("/getUser", authenticateJWT, ...)] *)
Definition get_getUser (now : N) : handler :=
  authenticateJWT now getUser.

(** One request to one of the three routes, with the salt or clock
    reading it consumes. *)
Inductive operation :=
  | Register (salt : string) (req : request)
  | Login (now : N) (req : request)
  | GetProfile (now : N) (req : request).

Definition serve (op : operation) : world → response * world :=
  match op with
  | Register salt req => post_register salt req
  | Login now req => post_login now req
  | GetProfile now req => get_getUser now req
  end.

(** The world after a sequence of requests, handled in order. *)
Definition run (ops : list operation) (w : world) : world :=
  foldl (λ w op, snd (serve op w)) w ops.

End app.

(** ** The earlier revision (lines 1-191)

    The file also holds the revision that preceded the one above. It
    differs in start-up, which throws when the secret is missing, and in
    having none of the configuration checks at the head of the guard and
    of the routes. *)

Module Legacy.

(** Lines 26-30. *)
Definition start (e : process_env) : boot :=
  if negb (truthy (SECRET_KEY e))
  then Crashed "SECRET_KEY is not defined in the environment variables."
  else Listening [].

Section app.
Context `{PasswordHasher} `{TokenCodec}.
Variable e : process_env.

(** Lines 49-65. *)
Definition authenticateJWT (now : N) (next : handler) : handler :=
  λ req w,
    let authHeader := authorization req in
    if negb (truthy authHeader)
    then (json_error 401 "Authorization header is missing", w)
    else
      let token := split space (default EmptyString authHeader) !! 1%nat in
      match jwt.verify token (default EmptyString (SECRET_KEY e)) now with
      | None => (json_error 403 "Invalid token", w)
      | Some d =>
          next (mkRequest (authorization req) (req_body req)
                  (Some (p_userID (claims d)))) w
      end.

(** Lines 68-86. *)
Definition post_register (salt : string) : handler :=
  λ req w,
    let uname := req_body req !! "username" in
    let pass := req_body req !! "password" in
    let mail := req_body req !! "email" in
    try_catch
      (let! existingUser := User.findOne (User.either uname mail) in
       if existingUser is Some _
       then resolve (json_error 400 "Username or email already exists")
       else
         let! hashedPassword := bcrypt.hash pass 10 salt in
         let! _ := User.save (mkDraft uname (Some hashedPassword) mail) in
         resolve (json_message 201 "User registered successfully"))
      (λ error w',
         (json_error 500 "Failed to register user",
          console_error "Error in /register endpoint:" error w'))
      w.

(** Lines 88-113. *)
Definition post_login (now : N) : handler :=
  λ req w,
    let uname := req_body req !! "username" in
    let pass := req_body req !! "password" in
    try_catch
      (let! found := User.findOne (User.named uname) in
       match found with
       | None => resolve (json_error 400 "Invalid credentials")
       | Some u =>
           let! isPasswordValid := bcrypt.compare pass (password u) in
           if negb isPasswordValid
           then resolve (json_error 400 "Invalid credentials")
           else
             let! token :=
               jwt.sign (mkPayload (_id u) (username u) (email u))
                 (default EmptyString (SECRET_KEY e)) one_hour now in
             resolve (mkResponse 200
                        [("token", JString token); ("userID", JObjectId (_id u))])
       end)
      (λ error w',
         (json_error 500 "Failed to log in",
          console_error "Error in /login endpoint:" error w'))
      w.

(** Lines 115-129. *)
Definition getUser : handler :=
  λ req w,
    try_catch
      (let! found := User.findById_select (userID req) in
       match found with
       | None => resolve (json_error 404 "User not found")
       | Some u =>
           resolve (mkResponse 200
                      [("username", JString (v_username u));
                       ("email", JString (v_email u))])
       end)
      (λ error w',
         (json_error 500 "Failed to fetch user details",
          console_error "Error fetching user details:" error w'))
      w.

End app.
End Legacy.

(** ** Facts about [split] *)

Lemma app_cons (c : ascii) (a b : string) : String c a +:+ b = String c (a +:+ b).
Proof. reflexivity. Qed.

Lemma split_not_nil (sep : ascii) (s : string) : split sep s ≠ [].
Proof.
  induction s as [|c s IH]; simpl; [done|].
  case_bool_decide; [done|]. by destruct (split sep s).
Qed.

(** A string without the separator is its own single segment. *)
Lemma split_free (sep : ascii) (s : string) :
  free_of sep s = true → split sep s = [s].
Proof.
  induction s as [|c s IH]; simpl; [done|].
  intros [Hc Hs]%andb_prop. case_bool_decide; [done|].
  by rewrite (IH Hs).
Qed.

(** The first segment ends at the first separator. *)
Lemma split_app (sep : ascii) (a b : string) :
  free_of sep a = true → split sep (a +:+ String sep b) = a :: split sep b.
Proof.
  induction a as [|c a IH]; intros Ha.
  - change (EmptyString +:+ String sep b) with (String sep b). simpl.
    by rewrite bool_decide_eq_true_2.
  - simpl in Ha. apply andb_prop in Ha as [Hc Ha].
    rewrite app_cons. simpl. case_bool_decide; [done|].
    by rewrite (IH Ha).
Qed.

Lemma free_of_app (c : ascii) (a b : string) :
  free_of c (a +:+ b) = free_of c a && free_of c b.
Proof.
  induction a as [|x a IH]; [done|].
  rewrite app_cons. simpl. rewrite IH. by rewrite andb_assoc.
Qed.

(** The token of a header [scheme token]: the second segment. *)
Lemma second_segment (scheme token : string) :
  free_of space scheme = true → free_of space token = true →
  split space (scheme +:+ String space token) !! 1%nat = Some token.
Proof.
  intros Hs Ht. rewrite (split_app _ _ _ Hs), (split_free _ _ Ht). done.
Qed.

(** ** Reference collaborators

    Executable instances of the two interfaces. They hide nothing (the
    "hash" shows the password, the "signature" is the key itself); they
    exist to run the routes on concrete requests and to show that the laws
    of the interfaces can be met. *)

Module Reference.

Definition digit (b : bool) : ascii := if b then "1"%char else "0"%char.

Definition undigit (c : ascii) : option bool :=
  if bool_decide (c = "0"%char) then Some false
  else if bool_decide (c = "1"%char) then Some true
  else None.

(** A string as the bits of its characters. *)
Fixpoint to_bits (s : string) : string :=
  match s with
  | EmptyString => EmptyString
  | String (Ascii b0 b1 b2 b3 b4 b5 b6 b7) s' =>
      String (digit b0) (String (digit b1) (String (digit b2) (String (digit b3)
     (String (digit b4) (String (digit b5) (String (digit b6) (String (digit b7)
     (to_bits s'))))))))
  end.

Fixpoint of_bits (s : string) : option string :=
  match s with
  | EmptyString => Some EmptyString
  | String c0 (String c1 (String c2 (String c3
   (String c4 (String c5 (String c6 (String c7 rest))))))) =>
      b0 ← undigit c0; b1 ← undigit c1; b2 ← undigit c2; b3 ← undigit c3;
      b4 ← undigit c4; b5 ← undigit c5; b6 ← undigit c6; b7 ← undigit c7;
      r ← of_bits rest;
      Some (String (Ascii b0 b1 b2 b3 b4 b5 b6 b7) r)
  | _ => None
  end.

(** A number as the binary digits of its successor, lowest first. *)
Fixpoint pos_to_bits (p : positive) : string :=
  match p with
  | xH => EmptyString
  | xO q => String (digit false) (pos_to_bits q)
  | xI q => String (digit true) (pos_to_bits q)
  end.

Fixpoint pos_of_bits (s : string) : option positive :=
  match s with
  | EmptyString => Some xH
  | String c s' =>
      b ← undigit c; q ← pos_of_bits s';
      Some (if b : bool then xI q else xO q)
  end.

Definition num_to_bits (n : N) : string := pos_to_bits (N.succ_pos n).
Definition num_of_bits (s : string) : option N := Pos.pred_N <$> pos_of_bits s.

Definition dot : ascii := "."%char.

Definition join6 (a b c d f g : string) : string :=
  a +:+ String dot (b +:+ String dot (c +:+ String dot
    (d +:+ String dot (f +:+ String dot g)))).

Definition reference_encode (p : payload) (key : string) (t ttl : N) : string :=
  join6 (to_bits (p_username p)) (to_bits (p_email p)) (num_to_bits (p_userID p))
        (num_to_bits t) (num_to_bits (t + ttl)) (to_bits key).

Definition reference_decode (tok key : string) (now : N) : option decoded :=
  if is_empty key then None
  else match split dot tok with
       | [a; b; c; d; f; g] =>
           u ← of_bits a; m ← of_bits b; i ← num_of_bits c;
           t ← num_of_bits d; x ← num_of_bits f; k ← of_bits g;
           if bool_decide (k = key) && bool_decide (now < x)
           then Some (mkDecoded (mkPayload i u m) t x)
           else None
       | _ => None
       end.

Definition reference_hash (data : string) (rounds : N) (salt : string) : string :=
  String "$"%char data.

Definition reference_matches (data hashed : string) : bool :=
  bool_decide (hashed = String "$"%char data).

(** All characters are binary digits. *)
Fixpoint binary (s : string) : bool :=
  match s with
  | EmptyString => true
  | String c s' =>
      (bool_decide (c = "0"%char) || bool_decide (c = "1"%char)) && binary s'
  end.

Lemma binary_free_of (c : ascii) (s : string) :
  c ≠ "0"%char → c ≠ "1"%char → binary s = true → free_of c s = true.
Proof.
  intros H0 H1. induction s as [|a s IH]; simpl; [done|].
  intros [Ha Hs]%andb_prop. rewrite (IH Hs), andb_true_r.
  apply negb_true_iff, bool_decide_eq_false.
  apply orb_prop in Ha as [Ha|Ha]; apply bool_decide_eq_true in Ha; congruence.
Qed.

Lemma binary_to_bits (s : string) : binary (to_bits s) = true.
Proof.
  induction s as [|[b0 b1 b2 b3 b4 b5 b6 b7] s IH]; [done|].
  simpl. rewrite IH.
  by destruct b0, b1, b2, b3, b4, b5, b6, b7.
Qed.

Lemma binary_pos_to_bits (p : positive) : binary (pos_to_bits p) = true.
Proof. induction p as [p IH|p IH|]; simpl; by rewrite ?IH. Qed.

Lemma binary_num_to_bits (n : N) : binary (num_to_bits n) = true.
Proof. apply binary_pos_to_bits. Qed.

Lemma undigit_digit (b : bool) : undigit (digit b) = Some b.
Proof. by destruct b. Qed.

Lemma of_to_bits (s : string) : of_bits (to_bits s) = Some s.
Proof.
  induction s as [|[b0 b1 b2 b3 b4 b5 b6 b7] s IH]; [done|].
  cbn [to_bits of_bits]. rewrite !undigit_digit. cbn [mbind option_bind].
  by rewrite IH.
Qed.

Lemma pos_of_to_bits (p : positive) : pos_of_bits (pos_to_bits p) = Some p.
Proof.
  induction p as [p IH|p IH|]; cbn [pos_to_bits pos_of_bits];
    rewrite ?undigit_digit; cbn [mbind option_bind]; by rewrite ?IH.
Qed.

Lemma num_of_to_bits (n : N) : num_of_bits (num_to_bits n) = Some n.
Proof.
  unfold num_of_bits, num_to_bits. rewrite pos_of_to_bits. simpl.
  by rewrite N.pos_pred_succ.
Qed.

Lemma split_join6 (a b c d f g : string) :
  binary a = true → binary b = true → binary c = true →
  binary d = true → binary f = true → binary g = true →
  split dot (join6 a b c d f g) = [a; b; c; d; f; g].
Proof.
  intros Ha Hb Hc Hd Hf Hg. unfold join6.
  rewrite !split_app by (by apply binary_free_of).
  by rewrite split_free by (by apply binary_free_of).
Qed.

Lemma split_reference_encode (p : payload) (key : string) (t ttl : N) :
  split dot (reference_encode p key t ttl) =
  [to_bits (p_username p); to_bits (p_email p); num_to_bits (p_userID p);
   num_to_bits t; num_to_bits (t + ttl); to_bits key].
Proof.
  apply split_join6;
    auto using binary_to_bits, binary_num_to_bits.
Qed.

Lemma reference_decode_encode (p : payload) (key key' : string) (t ttl now : N) :
  reference_decode (reference_encode p key t ttl) key' now =
  if is_empty key' then None
  else if bool_decide (key = key') && bool_decide (now < t + ttl)
       then Some (mkDecoded p t (t + ttl)) else None.
Proof.
  unfold reference_decode. rewrite split_reference_encode.
  rewrite !of_to_bits, !num_of_to_bits. cbn [mbind option_bind].
  by destruct p.
Qed.

#[export] Instance hasher : PasswordHasher.
Proof.
  refine {| hash_with_salt := reference_hash; hash_matches := reference_matches |}.
  - intros. by apply bool_decide_eq_true.
  - done.
Defined.

#[export] Instance codec : TokenCodec.
Proof.
  refine {| encode := reference_encode; decode := reference_decode |}.
  - intros p key t ttl now Hk Hn. rewrite reference_decode_encode.
    destruct key; [done|]. simpl.
    by rewrite !bool_decide_eq_true_2.
  - intros p key key' t ttl now Hk. rewrite reference_decode_encode.
    rewrite (bool_decide_eq_false_2 _ Hk). by destruct (is_empty key').
  - intros p key key' t ttl now Hn. rewrite reference_decode_encode.
    rewrite (bool_decide_eq_false_2 (now < t + ttl)) by lia.
    rewrite andb_false_r. by destruct (is_empty key').
  - done.
  - intros p key t ttl. unfold reference_encode, join6.
    repeat (rewrite free_of_app; simpl).
    by rewrite !binary_free_of by auto using binary_to_bits, binary_num_to_bits.
Defined.

End Reference.

(** ** Facts about the [User] queries *)

Lemma first_match_Some (P : user → bool) (docs : list user) (u : user) :
  User.first_match P docs = Some u → u ∈ docs ∧ P u = true.
Proof.
  unfold User.first_match. intros Hf.
  destruct (list_find _ docs) as [[i x]|] eqn:Hl; [|done].
  simpl in Hf. injection Hf as ->.
  apply list_find_Some in Hl as (Hi & HP & _).
  split; [by eapply list_elem_of_lookup_2|done].
Qed.

Lemma first_match_None (P : user → bool) (docs : list user) :
  User.first_match P docs = None ↔ ∀ u, u ∈ docs → P u = false.
Proof.
  unfold User.first_match. rewrite fmap_None, list_find_None, Forall_forall.
  split; intros Hn u Hu; specialize (Hn u Hu); by destruct (P u).
Qed.

Lemma first_match_is_Some (P : user → bool) (docs : list user) (u : user) :
  u ∈ docs → P u = true → is_Some (User.first_match P docs).
Proof.
  intros Hu HP. destruct (User.first_match P docs) eqn:Hf; [by eexists|].
  rewrite first_match_None in Hf. rewrite (Hf u Hu) in HP. done.
Qed.

(** A document appended to documents that do not match is the match. *)
Lemma first_match_snoc (P : user → bool) (docs : list user) (u : user) :
  (∀ x, x ∈ docs → P x = false) → P u = true →
  User.first_match P (docs ++ [u]) = Some u.
Proof.
  intros Hn HP. induction docs as [|x docs IH].
  - unfold User.first_match. simpl. rewrite decide_True by done. done.
  - unfold User.first_match in *. simpl.
    rewrite decide_False by (rewrite (Hn x) by left; done).
    destruct (list_find _ (docs ++ [u])) as [[i y]|] eqn:Hl.
    + simpl. rewrite <- IH; [done|]. intros z Hz. apply Hn. by right.
    + exfalso. simpl in IH. discriminate IH. intros z Hz. apply Hn. by right.
Qed.

Lemma fresh_id_above (docs : list user) (u : user) :
  u ∈ docs → _id u < User.fresh_id docs.
Proof.
  unfold User.fresh_id. induction docs as [|x docs IH]; intros Hu.
  - by apply elem_of_nil in Hu.
  - apply elem_of_cons in Hu as [->|Hu]; simpl.
    + lia.
    + specialize (IH Hu). lia.
Qed.

(** The unique indexes cannot reject what the [$or] query let through. *)
Lemma unique_index_free (docs : list user) (u m : string) :
  User.first_match (User.either (Some u) (Some m)) docs = None →
  existsb (λ x, bool_decide (username x = u) || bool_decide (email x = m)) docs = false.
Proof.
  rewrite first_match_None. intros Hn.
  induction docs as [|x docs IH]; [done|]. simpl.
  rewrite IH by (intros z Hz; apply Hn; by right).
  assert (Hx : x ∈ x :: docs) by left.
  specialize (Hn x Hx). unfold User.either in Hn. simpl in Hn.
  apply orb_false_elim in Hn as [H1 H2].
  apply bool_decide_eq_false in H1, H2.
  rewrite !bool_decide_eq_false_2; [done| |]; congruence.
Qed.

(** ** The outcomes of the routes *)

Section outcomes.
Context `{PasswordHasher} `{TokenCodec}.
Variable e : process_env.

(** The [$or] query of [/register] as a predicate on stored documents. *)
Definition taken (req : request) : user → bool :=
  User.either (req_body req !! "username") (req_body req !! "email").

(** The query of [/login] as a predicate on stored documents. *)
Definition addressed (req : request) : user → bool :=
  User.named (req_body req !! "username").

(** Every way [POST /register] can end. *)
Inductive register_outcome (salt : string) (req : request) (w : world)
  : response * world → Prop :=
  | register_unconfigured :
      truthy (MONGO_URI e) = false →
      register_outcome salt req w (json_error 503 "Database not configured", w)
  | register_duplicate u :
      truthy (MONGO_URI e) = true →
      User.first_match (taken req) (db w) = Some u →
      register_outcome salt req w (json_error 400 "Username or email already exists", w)
  | register_no_password :
      truthy (MONGO_URI e) = true →
      User.first_match (taken req) (db w) = None →
      req_body req !! "password" = None →
      register_outcome salt req w
        (json_error 500 "Failed to register user",
         console_error "Error in /register:" BcryptArgumentsRequired w)
  | register_invalid pass :
      truthy (MONGO_URI e) = true →
      User.first_match (taken req) (db w) = None →
      req_body req !! "password" = Some pass →
      truthy (req_body req !! "username") && truthy (req_body req !! "email") = false →
      register_outcome salt req w
        (json_error 500 "Failed to register user",
         console_error "Error in /register:" MongooseValidationError w)
  | register_created uname pass mail :
      truthy (MONGO_URI e) = true →
      User.first_match (taken req) (db w) = None →
      req_body req !! "username" = Some uname → uname ≠ EmptyString →
      req_body req !! "password" = Some pass →
      req_body req !! "email" = Some mail → mail ≠ EmptyString →
      register_outcome salt req w
        (json_message 201 "User registered successfully",
         mkWorld
           (db w ++ [mkUser (User.fresh_id (db w)) uname
                       (hash_with_salt pass 10 salt) mail])
           (console w)).

Lemma post_register_outcome (salt : string) (req : request) (w : world) :
  register_outcome salt req w (post_register e salt req w).
Proof.
  unfold post_register.
  destruct (truthy (MONGO_URI e)) eqn:Hm; simpl; [|by constructor].
  unfold try_catch, await, User.findOne. fold (taken req).
  destruct (User.first_match (taken req) (db w)) as [u|] eqn:Hf; simpl.
  { by eapply register_duplicate. }
  destruct (req_body req !! "password") as [pass|] eqn:Hp; simpl;
    [|by constructor].
  unfold User.save. simpl.
  destruct (hash_with_salt pass 10 salt) as [|c h] eqn:Hh;
    [by apply hash_not_empty in Hh|].
  destruct (req_body req !! "username") as [[|c1 uname]|] eqn:Hu; simpl;
    try (eapply register_invalid; eauto; by rewrite Hu).
  destruct (req_body req !! "email") as [[|c2 mail]|] eqn:He; simpl;
    try (eapply register_invalid; eauto; by rewrite Hu, He).
  rewrite unique_index_free.
  - rewrite <- Hh. by eapply register_created.
  - unfold taken in Hf. by rewrite Hu, He in Hf.
Qed.

(** Every way [POST /login] can end. *)
Inductive login_outcome (now : N) (req : request) (w : world)
  : response * world → Prop :=
  | login_unconfigured :
      truthy (MONGO_URI e) = false →
      login_outcome now req w (json_error 503 "Database not configured", w)
  | login_no_secret :
      truthy (MONGO_URI e) = true → secret_key e = EmptyString →
      login_outcome now req w (json_error 500 "Server misconfigured (no SECRET_KEY)", w)
  | login_unknown :
      truthy (MONGO_URI e) = true → secret_key e ≠ EmptyString →
      User.first_match (addressed req) (db w) = None →
      login_outcome now req w (json_error 400 "Invalid credentials", w)
  | login_no_password u :
      truthy (MONGO_URI e) = true → secret_key e ≠ EmptyString →
      User.first_match (addressed req) (db w) = Some u →
      req_body req !! "password" = None →
      login_outcome now req w
        (json_error 500 "Failed to log in",
         console_error "Error in /login:" BcryptArgumentsRequired w)
  | login_mismatch u pass :
      truthy (MONGO_URI e) = true → secret_key e ≠ EmptyString →
      User.first_match (addressed req) (db w) = Some u →
      req_body req !! "password" = Some pass →
      hash_matches pass (password u) = false →
      login_outcome now req w (json_error 400 "Invalid credentials", w)
  | login_token u pass :
      truthy (MONGO_URI e) = true → secret_key e ≠ EmptyString →
      User.first_match (addressed req) (db w) = Some u →
      req_body req !! "password" = Some pass →
      hash_matches pass (password u) = true →
      login_outcome now req w
        (mkResponse 200
           [("token", JString (encode (mkPayload (_id u) (username u) (email u))
                                 (secret_key e) now one_hour));
            ("userID", JObjectId (_id u))], w).

Lemma is_empty_true (s : string) : is_empty s = true ↔ s = EmptyString.
Proof. by destruct s. Qed.

Lemma is_empty_false (s : string) : is_empty s = false ↔ s ≠ EmptyString.
Proof. by destruct s. Qed.

Lemma post_login_outcome (now : N) (req : request) (w : world) :
  login_outcome now req w (post_login e now req w).
Proof.
  unfold post_login.
  destruct (truthy (MONGO_URI e)) eqn:Hm; simpl; [|by constructor].
  destruct (is_empty (secret_key e)) eqn:Hs.
  { apply login_no_secret; [done|by apply is_empty_true]. }
  apply is_empty_false in Hs as Hs'.
  unfold try_catch, await, User.findOne. fold (addressed req).
  destruct (User.first_match (addressed req) (db w)) as [u|] eqn:Hf; simpl;
    [|by apply login_unknown].
  destruct (req_body req !! "password") as [pass|] eqn:Hp; simpl;
    [|by eapply login_no_password].
  destruct (hash_matches pass (password u)) eqn:Hc; simpl;
    [|by eapply login_mismatch].
  unfold jwt.sign. rewrite Hs. simpl. by eapply login_token.
Qed.

End outcomes.

(** ** Registration and login *)

Section credentials.
Context `{PasswordHasher} `{TokenCodec}.
Variable e : process_env.

(** A stored document that carries the username or the email of the
    request. *)
Definition matches_input (req : request) (u : user) : Prop :=
  req_body req !! "username" = Some (username u) ∨
  req_body req !! "email" = Some (email u).

Lemma matches_input_taken (req : request) (u : user) :
  matches_input req u → taken req u = true.
Proof.
  unfold taken, User.either. intros [Hu|Hm].
  - rewrite Hu. simpl. by rewrite bool_decide_eq_true_2.
  - rewrite Hm. simpl. rewrite (bool_decide_eq_true_2 (email u = email u)) by done.
    apply orb_true_r.
Qed.

Lemma register_rejects_match (salt : string) (req : request) (w : world) (u : user) :
  truthy (MONGO_URI e) = true → u ∈ db w → matches_input req u →
  post_register e salt req w =
    (json_error 400 "Username or email already exists", w).
Proof.
  intros Hm Hu Hin.
  destruct (first_match_is_Some (taken req) (db w) u Hu
              (matches_input_taken _ _ Hin)) as [x Hx].
  destruct (post_register_outcome e salt req w); try congruence.
Qed.

(** What a successful registration leaves in the store. *)
Lemma register_created_inv (salt : string) (req : request) (w w' : world) (r : response) :
  post_register e salt req w = (r, w') → status r = 201 →
  ∃ uname pass mail,
    truthy (MONGO_URI e) = true ∧
    req_body req !! "username" = Some uname ∧
    req_body req !! "password" = Some pass ∧
    req_body req !! "email" = Some mail ∧
    r = json_message 201 "User registered successfully" ∧
    w' = mkWorld (db w ++ [mkUser (User.fresh_id (db w)) uname
                             (hash_with_salt pass 10 salt) mail])
                 (console w).
Proof.
  intros Hr Hs.
  destruct (post_register_outcome e salt req w);
    injection Hr as <- <-; try discriminate Hs.
  by exists uname, pass, mail.
Qed.

(** C3. Whenever the store holds a document whose username or email is
    that of the request, [POST /register] on a server with a configured
    store answers 400 "Username or email already exists" and leaves the
    world as it was. In particular a second registration that repeats the
    username (with any email) or the email (with any username) of a
    successful one is refused. *)
Theorem register_duplicate_credential
  (salt salt' : string) (req req' : request) (w w' : world) (r : response) (u : user) :
  truthy (MONGO_URI e) = true →
  (u ∈ db w → matches_input req u →
   post_register e salt req w =
     (json_error 400 "Username or email already exists", w)) ∧
  (post_register e salt req w = (r, w') → status r = 201 →
   (req_body req' !! "username" = req_body req !! "username" ∨
    req_body req' !! "email" = req_body req !! "email") →
   post_register e salt' req' w' =
     (json_error 400 "Username or email already exists", w')).
Proof.
  intros Hm. split; [by apply register_rejects_match|].
  intros Hr Hs Hsame.
  destruct (register_created_inv _ _ _ _ _ Hr Hs)
    as (uname & pass & mail & _ & Hu & _ & He & _ & ->).
  eapply register_rejects_match; [done| |].
  - simpl. apply elem_of_app. right. apply list_elem_of_singleton. reflexivity.
  - unfold matches_input. simpl. rewrite <- Hu, <- He. tauto.
Qed.

(** When the password of the request is a string: on any server and
    store, a login that names a stored user with a password that does not
    match, and a login that names no stored user, produce the same
    response (status and body) and leave the same world. *)
Theorem login_failures_indistinguishable
  (now now' : N) (req req' : request) (w : world) (u : user) (pass : string) :
  User.first_match (addressed req) (db w) = Some u →
  req_body req !! "password" = Some pass →
  hash_matches pass (password u) = false →
  User.first_match (addressed req') (db w) = None →
  post_login e now req w = post_login e now' req' w.
Proof.
  intros Hu Hp Hc Hn.
  destruct (post_login_outcome e now req w);
    destruct (post_login_outcome e now' req' w); congruence.
Qed.

(** The same failure, spelled out for a configured server. *)
Lemma login_wrong_password
  (now : N) (req : request) (w : world) (u : user) (pass : string) :
  truthy (MONGO_URI e) = true → secret_key e ≠ EmptyString →
  User.first_match (addressed req) (db w) = Some u →
  req_body req !! "password" = Some pass →
  hash_matches pass (password u) = false →
  post_login e now req w = (json_error 400 "Invalid credentials", w).
Proof.
  intros Hm Hs Hu Hp Hc.
  destruct (post_login_outcome e now req w); congruence.
Qed.

Lemma login_unknown_user (now : N) (req : request) (w : world) :
  truthy (MONGO_URI e) = true → secret_key e ≠ EmptyString →
  User.first_match (addressed req) (db w) = None →
  post_login e now req w = (json_error 400 "Invalid credentials", w).
Proof.
  intros Hm Hs Hn.
  destruct (post_login_outcome e now req w); congruence.
Qed.

(** Login with the right password. *)
Lemma login_issues_token
  (now : N) (req : request) (w : world) (u : user) (pass : string) :
  truthy (MONGO_URI e) = true → secret_key e ≠ EmptyString →
  User.first_match (addressed req) (db w) = Some u →
  req_body req !! "password" = Some pass →
  hash_matches pass (password u) = true →
  post_login e now req w =
    (mkResponse 200
       [("token", JString (encode (mkPayload (_id u) (username u) (email u))
                             (secret_key e) now one_hour));
        ("userID", JObjectId (_id u))], w).
Proof.
  intros Hm Hs Hu Hp Hc.
  destruct (post_login_outcome e now req w); congruence.
Qed.

(** C1. On a server with store and secret configured, for a registration
    whose username and email are non-empty and carried by no stored
    document, [POST /register] answers 201 and a following [POST /login]
    with the same username and password answers 200 with a token; verified
    at any time within the hour, that token decodes to the username and
    email of the registration and to the identifier returned beside it. *)
Theorem register_then_login
  (salt : string) (now : N) (reg log : request) (w : world)
  (uname pass mail : string) :
  truthy (MONGO_URI e) = true → secret_key e ≠ EmptyString →
  req_body reg !! "username" = Some uname →
  req_body reg !! "password" = Some pass →
  req_body reg !! "email" = Some mail →
  uname ≠ EmptyString → mail ≠ EmptyString →
  (∀ u, u ∈ db w → username u ≠ uname ∧ email u ≠ mail) →
  req_body log !! "username" = Some uname →
  req_body log !! "password" = Some pass →
  ∃ w1 id tok,
    post_register e salt reg w =
      (json_message 201 "User registered successfully", w1) ∧
    post_login e now log w1 =
      (mkResponse 200 [("token", JString tok); ("userID", JObjectId id)], w1) ∧
    ∀ t, t < now + one_hour →
      ∃ d, jwt.verify (Some tok) (secret_key e) t = Some d ∧
           p_username (claims d) = uname ∧ p_email (claims d) = mail ∧
           p_userID (claims d) = id.
Proof.
  intros Hm Hs Hu Hp He Hune Hmne Hfree Hlu Hlp.
  assert (Hnone : User.first_match (taken reg) (db w) = None).
  { apply first_match_None. intros u Hin. destruct (Hfree u Hin) as [H1 H2].
    unfold taken, User.either. rewrite Hu, He. simpl.
    rewrite !bool_decide_eq_false_2; [done| |]; congruence. }
  set (doc := mkUser (User.fresh_id (db w)) uname (hash_with_salt pass 10 salt) mail).
  exists (mkWorld (db w ++ [doc]) (console w)), (_id doc),
    (encode (mkPayload (_id doc) (username doc) (email doc)) (secret_key e) now one_hour).
  split; [|split].
  - destruct (post_register_outcome e salt reg w); try congruence.
    + rewrite Hu, He in *. by destruct uname, mail.
    + repeat f_equal; congruence.
  - apply (login_issues_token now log _ doc pass); try done.
    + simpl. apply first_match_snoc.
      * intros x Hx. destruct (Hfree x Hx) as [H1 _].
        unfold addressed, User.named. rewrite Hlu. simpl.
        apply bool_decide_eq_false_2. congruence.
      * unfold addressed, User.named. rewrite Hlu. simpl.
        by apply bool_decide_eq_true_2.
    + apply hash_matches_own.
  - intros t Ht. eexists. split.
    + simpl. by apply decode_encode.
    + done.
Qed.

End credentials.

(** ** The guard *)

Section guard.
Context `{PasswordHasher} `{TokenCodec}.
Variable e : process_env.

(** The request as the guard hands it on: [req.userID = decoded.userID]. *)
Definition identified (req : request) (d : decoded) : request :=
  mkRequest (authorization req) (req_body req) (Some (p_userID (claims d))).

(** The token the guard reads out of a request: [authHeader.split(" ")[1]]. *)
Definition presented (req : request) : option string :=
  split space (default EmptyString (authorization req)) !! 1%nat.

(** The three ways through the guard, once the secret is configured. *)
Lemma authenticateJWT_cases (now : N) (next : handler) (req : request) (w : world) :
  secret_key e ≠ EmptyString →
  authenticateJWT e now next req w =
    if truthy (authorization req)
    then match jwt.verify (presented req) (secret_key e) now with
         | Some d => next (identified req d) w
         | None => (json_error 403 "Invalid token", w)
         end
    else (json_error 401 "Authorization header is missing", w).
Proof.
  intros Hs%is_empty_false. unfold authenticateJWT. rewrite Hs.
  by destruct (truthy (authorization req)).
Qed.

Lemma authenticateJWT_no_secret (now : N) (next : handler) (req : request) (w : world) :
  secret_key e = EmptyString →
  authenticateJWT e now next req w =
    (json_error 500 "Server misconfigured (no SECRET_KEY)", w).
Proof.
  intros Hs%is_empty_true. unfold authenticateJWT. by rewrite Hs.
Qed.

(** A header without a space has no second segment. *)
Lemma presented_none (req : request) (h : string) :
  authorization req = Some h → free_of space h = true → presented req = None.
Proof.
  intros Hh Hf. unfold presented. rewrite Hh. simpl.
  by rewrite (split_free _ _ Hf).
Qed.

Lemma presented_second (req : request) (scheme token : string) :
  authorization req = Some (scheme +:+ String space token) →
  free_of space scheme = true → free_of space token = true →
  presented req = Some token.
Proof.
  intros Hh Hs Ht. unfold presented. rewrite Hh. simpl.
  by apply second_segment.
Qed.

(** C4, as the code has it. On a server whose signing secret is
    configured, whatever handler [next] stands behind the guard: a request
    whose [Authorization] header is missing or empty is answered 401; a
    request with a non-empty header whose token fails verification is
    answered 403, and so is one whose header has no second segment. In all
    three cases the answer and the world do not depend on [next]. *)
Theorem guard_rejections (now : N) (next : handler) (req : request) (w : world) :
  secret_key e ≠ EmptyString →
  (truthy (authorization req) = false →
   authenticateJWT e now next req w =
     (json_error 401 "Authorization header is missing", w)) ∧
  (truthy (authorization req) = true →
   jwt.verify (presented req) (secret_key e) now = None →
   authenticateJWT e now next req w = (json_error 403 "Invalid token", w)) ∧
  (∀ h, authorization req = Some h → h ≠ EmptyString →
        free_of space h = true →
        authenticateJWT e now next req w = (json_error 403 "Invalid token", w)).
Proof.
  intros Hs. rewrite (authenticateJWT_cases _ _ _ _ Hs).
  split; [|split].
  - by intros ->.
  - by intros -> ->.
  - intros h Hh Hne Hf. rewrite (presented_none _ _ Hh Hf), Hh.
    by destruct h.
Qed.

(** A verified token lets the request through, identified. *)
Lemma guard_passes
  (now : N) (next : handler) (req : request) (w : world)
  (token : string) (d : decoded) :
  truthy (authorization req) = true → presented req = Some token →
  jwt.verify (Some token) (secret_key e) now = Some d →
  authenticateJWT e now next req w = next (identified req d) w.
Proof.
  intros Hh Hp Hv.
  assert (Hs : secret_key e ≠ EmptyString).
  { intros Hs. simpl in Hv. rewrite Hs, decode_no_key in Hv. discriminate. }
  rewrite (authenticateJWT_cases _ _ _ _ Hs). by rewrite Hh, Hp, Hv.
Qed.

Lemma truthy_with_space (scheme token : string) :
  truthy (Some (scheme +:+ String space token)) = true.
Proof. by destruct scheme. Qed.

(** C9. The scheme word of the header is never looked at: for a header
    [scheme token], where neither part contains a space and [token]
    verifies against the server's secret, the guard calls [next] with the
    identifier of the token, whatever [scheme] is. *)
Theorem guard_ignores_scheme
  (now : N) (next : handler) (req : request) (w : world)
  (scheme token : string) (d : decoded) :
  authorization req = Some (scheme +:+ String space token) →
  free_of space scheme = true → free_of space token = true →
  jwt.verify (Some token) (secret_key e) now = Some d →
  authenticateJWT e now next req w = next (identified req d) w.
Proof.
  intros Hh Hsch Htok Hv.
  apply guard_passes with (token := token); [|by eapply presented_second|done].
  rewrite Hh. apply truthy_with_space.
Qed.

(** A token that [POST /login] returned. *)
Definition issued (now : N) (req : request) (w : world) (tok : string) (id : ObjectId) : Prop :=
  fst (post_login e now req w) =
    mkResponse 200 [("token", JString tok); ("userID", JObjectId id)].

Lemma issued_inv (now : N) (req : request) (w : world) (tok : string) (id : ObjectId) :
  issued now req w tok id →
  secret_key e ≠ EmptyString ∧
  ∃ u, u ∈ db w ∧ _id u = id ∧
       tok = encode (mkPayload (_id u) (username u) (email u))
               (secret_key e) now one_hour.
Proof.
  unfold issued. intros Hi.
  destruct (post_login_outcome e now req w); try discriminate Hi.
  simpl in Hi. injection Hi as <- <-.
  split; [done|]. exists u. split; [|done].
  by eapply first_match_Some.
Qed.

Lemma guard_rejects_token
  (now : N) (next : handler) (req : request) (w : world) (tok : string) :
  secret_key e ≠ EmptyString →
  authorization req = Some ("Bearer" +:+ String space tok) →
  free_of space tok = true →
  decode tok (secret_key e) now = None →
  authenticateJWT e now next req w = (json_error 403 "Invalid token", w).
Proof.
  intros Hs Hh Hf Hd. rewrite (authenticateJWT_cases _ _ _ _ Hs).
  rewrite (presented_second _ _ _ Hh eq_refl Hf), Hh. simpl. by rewrite Hd.
Qed.

(** C5. A token that [POST /login] issued at time [t0], presented as
    [Bearer token] before [t0 + 3600], passes the guard, which calls
    [next] with the identifier that login returned. On a server that has
    a secret, a token signed with any other secret is answered 403, and so
    is a token with a one-hour expiry once the hour has passed, whichever
    secret signed it; in particular a token that login issued. *)
Theorem guard_accepts_issued_rejects_foreign_and_expired
  (t0 now : N) (next : handler) (log req : request) (w0 w : world)
  (tok : string) (id : ObjectId) (p : payload) (key : string) :
  (issued t0 log w0 tok id →
   authorization req = Some ("Bearer" +:+ String space tok) →
   now < t0 + one_hour →
   authenticateJWT e now next req w =
     next (mkRequest (authorization req) (req_body req) (Some id)) w) ∧
  (secret_key e ≠ EmptyString → key ≠ secret_key e →
   authorization req = Some ("Bearer" +:+ String space (encode p key t0 one_hour)) →
   authenticateJWT e now next req w = (json_error 403 "Invalid token", w)) ∧
  (secret_key e ≠ EmptyString → t0 + one_hour ≤ now →
   authorization req = Some ("Bearer" +:+ String space (encode p key t0 one_hour)) →
   authenticateJWT e now next req w = (json_error 403 "Invalid token", w)) ∧
  (issued t0 log w0 tok id → t0 + one_hour ≤ now →
   authorization req = Some ("Bearer" +:+ String space tok) →
   authenticateJWT e now next req w = (json_error 403 "Invalid token", w)).
Proof.
  split; [|split; [|split]].
  - intros Hi Hh Hn. apply issued_inv in Hi as (Hs & u & _ & <- & ->).
    set (claimed := mkPayload (_id u) (username u) (email u)) in *.
    rewrite (guard_passes now next req w
               (encode claimed (secret_key e) t0 one_hour)
               (mkDecoded claimed t0 (t0 + one_hour))).
    + done.
    + rewrite Hh. apply truthy_with_space.
    + eapply presented_second; eauto using encode_no_space.
    + simpl. by apply decode_encode.
  - intros Hs Hk Hh. eapply guard_rejects_token; eauto using encode_no_space.
    by apply decode_other_key.
  - intros Hs Hn Hh. eapply guard_rejects_token; eauto using encode_no_space.
    by apply decode_expired.
  - intros Hi Hn Hh. apply issued_inv in Hi as (Hs & u & _ & _ & ->).
    eapply guard_rejects_token; eauto using encode_no_space.
    by apply decode_expired.
Qed.

End guard.

(** ** The profile route *)

Section profile.
Context `{PasswordHasher} `{TokenCodec}.
Variable e : process_env.

(** The document that [findById] reaches. *)
Definition looked_up (id : option ObjectId) (docs : list user) : option user :=
  match id with
  | Some i => User.first_match (λ u, bool_decide (_id u = i)) docs
  | None => None
  end.

(** Every way the handler of [GET /getUser] can end. *)
Lemma getUser_cases (req : request) (w : world) :
  getUser e req w =
    if truthy (MONGO_URI e)
    then match looked_up (userID req) (db w) with
         | Some u =>
             (mkResponse 200 [("username", JString (username u));
                              ("email", JString (email u))], w)
         | None => (json_error 404 "User not found", w)
         end
    else (json_error 503 "Database not configured", w).
Proof.
  unfold getUser. destruct (truthy (MONGO_URI e)); [|done]. simpl.
  unfold try_catch, await, User.findById_select, looked_up.
  destruct (userID req) as [i|]; [|done].
  by destruct (User.first_match _ (db w)).
Qed.

(** C7. Whenever [GET /getUser] answers 200, on any store, the body is
    exactly the [username] and [email] of the stored document whose
    identifier the verified token carries: two fields, no [password]
    field, and nothing is written. *)
Theorem profile_projection (now : N) (req : request) (w w' : world) (r : response) :
  get_getUser e now req w = (r, w') → status r = 200 →
  ∃ d u,
    jwt.verify (presented req) (secret_key e) now = Some d ∧
    looked_up (Some (p_userID (claims d))) (db w) = Some u ∧
    u ∈ db w ∧
    body r = [("username", JString (username u)); ("email", JString (email u))] ∧
    (∀ k v, (k, v) ∈ body r → k ≠ "password") ∧
    w' = w.
Proof.
  unfold get_getUser. intros Hr Hs.
  destruct (decide (secret_key e = EmptyString)) as [Hk|Hk].
  { rewrite authenticateJWT_no_secret in Hr by done.
    injection Hr as <- <-. discriminate Hs. }
  rewrite authenticateJWT_cases in Hr by done.
  destruct (truthy (authorization req));
    [|injection Hr as <- <-; discriminate Hs].
  destruct (jwt.verify (presented req) (secret_key e) now) as [d|];
    [|injection Hr as <- <-; discriminate Hs].
  rewrite getUser_cases in Hr.
  destruct (truthy (MONGO_URI e));
    [|injection Hr as <- <-; discriminate Hs].
  simpl in Hr.
  destruct (User.first_match _ (db w)) as [u|] eqn:Hu;
    [|injection Hr as <- <-; discriminate Hs].
  injection Hr as <- <-. exists d, u.
  repeat split; try done.
  - by apply first_match_Some in Hu as [? _].
  - intros k v Hin. simpl in Hin.
    apply elem_of_cons in Hin as [Hin|Hin]; [by injection Hin as -> _|].
    apply elem_of_cons in Hin as [Hin|Hin]; [by injection Hin as -> _|].
    by apply elem_of_nil in Hin.
Qed.

End profile.

(** ** A server without its signing secret *)

Section degraded.
Context `{PasswordHasher} `{TokenCodec}.
Variable e : process_env.

(** C6, as the code has it. When [SECRET_KEY] is unset or empty, start-up
    still reaches [app.listen]; the guard answers every request with 500
    "Server misconfigured (no SECRET_KEY)" and [POST /login] answers the
    same, unless the store is not configured either, in which case it
    answers 503 "Database not configured". Neither route changes the
    world. *)
Theorem missing_secret_degrades :
  truthy (SECRET_KEY e) = false →
  (∃ warnings, start e = Listening warnings) ∧
  (∀ now next req w,
     authenticateJWT e now next req w =
       (json_error 500 "Server misconfigured (no SECRET_KEY)", w)) ∧
  (∀ now req w,
     post_login e now req w =
       if truthy (MONGO_URI e)
       then (json_error 500 "Server misconfigured (no SECRET_KEY)", w)
       else (json_error 503 "Database not configured", w)).
Proof.
  intros Hk.
  assert (Hs : secret_key e = EmptyString) by (unfold secret_key; by rewrite Hk).
  split; [by eexists|]. split.
  - intros. by apply authenticateJWT_no_secret.
  - intros now req w. unfold post_login. rewrite Hs. simpl.
    by destruct (truthy (MONGO_URI e)).
Qed.

End degraded.

(** ** The store over a run of requests *)

Section monotone.
Context `{PasswordHasher} `{TokenCodec}.
Variable e : process_env.

(** Only [POST /register] writes to the store. *)
Lemma login_keeps_store (now : N) (req : request) (w : world) :
  db (snd (post_login e now req w)) = db w.
Proof. by destruct (post_login_outcome e now req w). Qed.

Lemma getUser_keeps_store (req : request) (w : world) :
  db (snd (getUser e req w)) = db w.
Proof.
  rewrite getUser_cases. destruct (truthy (MONGO_URI e)); [|done].
  by destruct (looked_up _ _).
Qed.

Lemma get_getUser_keeps_store (now : N) (req : request) (w : world) :
  db (snd (get_getUser e now req w)) = db w.
Proof.
  unfold get_getUser, authenticateJWT.
  destruct (is_empty _); [done|]. destruct (negb _); [done|].
  destruct (jwt.verify _ _ _); [|done]. apply getUser_keeps_store.
Qed.

Lemma register_appends (salt : string) (req : request) (w : world) :
  db (snd (post_register e salt req w)) = db w ∨
  ∃ u, db (snd (post_register e salt req w)) = db w ++ [u].
Proof.
  destruct (post_register_outcome e salt req w); simpl; eauto.
Qed.

Lemma serve_extends (op : operation) (w : world) :
  db w `prefix_of` db (snd (serve e op w)).
Proof.
  destruct op as [salt req|now req|now req]; simpl.
  - destruct (register_appends salt req w) as [->|[u ->]];
      [done|by apply prefix_app_r].
  - by rewrite login_keeps_store.
  - by rewrite get_getUser_keeps_store.
Qed.

Lemma run_extends (ops : list operation) (w : world) :
  db w `prefix_of` db (run e ops w).
Proof.
  revert w. induction ops as [|op ops IH]; intros w; [done|].
  simpl. etrans; [apply serve_extends|apply IH].
Qed.

(** C8. Over any sequence of requests the stored documents only grow:
    login and the profile route leave the store as it is, a registration
    leaves it as it is or appends one document, and so the store before a
    run is a prefix of the store after it: every document keeps its place
    and its contents. *)
Theorem store_only_grows :
  (∀ now req w, db (snd (post_login e now req w)) = db w) ∧
  (∀ now req w, db (snd (get_getUser e now req w)) = db w) ∧
  (∀ salt req w,
     db (snd (post_register e salt req w)) = db w ∨
     ∃ u, db (snd (post_register e salt req w)) = db w ++ [u]) ∧
  (∀ ops w, db w `prefix_of` db (run e ops w)) ∧
  (∀ ops w i u, db w !! i = Some u → db (run e ops w) !! i = Some u).
Proof.
  repeat split.
  - apply login_keeps_store.
  - apply get_getUser_keeps_store.
  - apply register_appends.
  - apply run_extends.
  - intros ops w i u Hi. destruct (run_extends ops w) as [added ->].
    by apply lookup_app_l_Some.
Qed.

End monotone.

(** ** Missing fields of a registration *)

Section presence.
Context `{PasswordHasher} `{TokenCodec}.
Variable e : process_env.


End presence.

(** ** The two revisions

    On a server with store and secret configured the guard, the profile
    handler and the responses of both revisions coincide; the routes that
    log differ only in the label [console.error] prints. *)

Section revisions.
Context `{PasswordHasher} `{TokenCodec}.
Variable e : process_env.
Hypothesis store_configured : truthy (MONGO_URI e) = true.
Hypothesis secret_configured : truthy (SECRET_KEY e) = true.

Lemma secret_key_configured : secret_key e = default EmptyString (SECRET_KEY e).
Proof. unfold secret_key. by rewrite secret_configured. Qed.

Lemma secret_key_not_empty : secret_key e ≠ EmptyString.
Proof.
  rewrite secret_key_configured.
  by destruct (SECRET_KEY e) as [[|c s]|].
Qed.

Lemma legacy_start_listens : Legacy.start e = Listening [].
Proof. unfold Legacy.start. by rewrite secret_configured. Qed.

Lemma legacy_authenticateJWT (now : N) (next : handler) (req : request) (w : world) :
  Legacy.authenticateJWT e now next req w = authenticateJWT e now next req w.
Proof.
  unfold Legacy.authenticateJWT, authenticateJWT.
  rewrite (proj2 (is_empty_false _) secret_key_not_empty).
  by rewrite secret_key_configured.
Qed.

Lemma legacy_getUser (req : request) (w : world) :
  Legacy.getUser req w = getUser e req w.
Proof. unfold Legacy.getUser, getUser. by rewrite store_configured. Qed.

Lemma legacy_post_register (salt : string) (req : request) (w : world) :
  fst (Legacy.post_register salt req w) = fst (post_register e salt req w) ∧
  db (snd (Legacy.post_register salt req w)) = db (snd (post_register e salt req w)).
Proof.
  unfold Legacy.post_register, post_register. rewrite store_configured. simpl.
  unfold try_catch.
  by destruct (await _ _ w) as [[err|r] w'].
Qed.

Lemma legacy_post_login (now : N) (req : request) (w : world) :
  fst (Legacy.post_login e now req w) = fst (post_login e now req w) ∧
  db (snd (Legacy.post_login e now req w)) = db (snd (post_login e now req w)).
Proof.
  unfold Legacy.post_login, post_login. rewrite store_configured. simpl.
  rewrite (proj2 (is_empty_false _) secret_key_not_empty).
  rewrite <- secret_key_configured. unfold try_catch.
  by destruct (await _ _ w) as [[err|r] w'].
Qed.

End revisions.

(** The guard of the earlier revision has no check of the secret before
    the header: a missing or empty header is answered 401 on any
    environment. *)
Lemma legacy_guard_missing_header
  `{TokenCodec} (e : process_env) (now : N) (next : handler) (req : request) (w : world) :
  truthy (authorization req) = false →
  Legacy.authenticateJWT e now next req w =
    (json_error 401 "Authorization header is missing", w).
Proof. unfold Legacy.authenticateJWT. by intros ->. Qed.

(** Without the secret the earlier revision never starts. *)
Lemma legacy_start_crashes (e : process_env) :
  truthy (SECRET_KEY e) = false →
  Legacy.start e = Crashed "SECRET_KEY is not defined in the environment variables.".
Proof. unfold Legacy.start. by intros ->. Qed.

(** ** Worked requests

    The routes run on concrete requests with the reference collaborators:
    instances of the theorems above, and the inputs on which two
    statements of the specification fail. *)

Definition configured : process_env :=
  mkEnv (Some "mongodb://localhost/portfolio") (Some "s3cret").

Definition without_secret : process_env :=
  mkEnv (Some "mongodb://localhost/portfolio") None.

Definition form (uname pass mail : string) : request :=
  mkRequest None
    {[ "username" := uname; "password" := pass; "email" := mail ]} None.

Definition bearer (header : string) : request :=
  mkRequest (Some header) ∅ None.

Definition bob : user :=
  mkUser 7 "bob" (Reference.reference_hash "hunter2" 10 "salt") "b@x.com".

Definition one_user : world := mkWorld [bob] [].

(** The token [POST /login] hands to bob at time 1000. *)
Definition bob_token : string :=
  Reference.reference_encode (mkPayload 7 "bob" "b@x.com") "s3cret" 1000 one_hour.

(** The same claims signed with another secret. *)
Definition forged_token : string :=
  Reference.reference_encode (mkPayload 7 "bob" "b@x.com") "guess" 1000 one_hour.

(** A handler that would answer 200 if it were ever called. *)
Definition open_door : handler :=
  λ req w, (json_message 200 "reached", w).

Lemma register_then_login_example :
  ∃ w1 id tok,
    post_register (H := Reference.hasher) configured "salt"
      (form "alice" "p4ss" "a@x.com") one_user =
      (json_message 201 "User registered successfully", w1) ∧
    post_login (H := Reference.hasher) (H0 := Reference.codec) configured 1000
      (form "alice" "p4ss" "a@x.com") w1 =
      (mkResponse 200 [("token", JString tok); ("userID", JObjectId id)], w1) ∧
    ∀ t, t < 1000 + one_hour →
      ∃ d, jwt.verify (H := Reference.codec) (Some tok) (secret_key configured) t = Some d ∧
           p_username (claims d) = "alice" ∧ p_email (claims d) = "a@x.com" ∧
           p_userID (claims d) = id.
Proof.
  apply (register_then_login (H := Reference.hasher) (H0 := Reference.codec)
           configured "salt" 1000 (form "alice" "p4ss" "a@x.com")
           (form "alice" "p4ss" "a@x.com") one_user "alice" "p4ss" "a@x.com");
    try reflexivity; try discriminate.
  intros u Hu. apply list_elem_of_singleton in Hu. rewrite Hu.
  split; discriminate.
Defined.

Lemma login_failures_indistinguishable_example :
  post_login (H := Reference.hasher) (H0 := Reference.codec) configured 1000
    (form "bob" "letmein" "") one_user =
  post_login (H := Reference.hasher) (H0 := Reference.codec) configured 2000
    (form "mallory" "letmein" "") one_user.
Proof.
  apply (login_failures_indistinguishable (H := Reference.hasher)
           (H0 := Reference.codec) configured 1000 2000 _ _ one_user bob "letmein");
    reflexivity.
Defined.

Lemma register_duplicate_credential_example :
  post_register (H := Reference.hasher) configured "salt"
    (form "bob" "p4ss" "other@x.com") one_user =
    (json_error 400 "Username or email already exists", one_user) ∧
  post_register (H := Reference.hasher) configured "pepper"
    (form "carol" "p4ss" "a@x.com")
    (snd (post_register (H := Reference.hasher) configured "salt"
            (form "alice" "p4ss" "a@x.com") one_user)) =
    (json_error 400 "Username or email already exists",
     snd (post_register (H := Reference.hasher) configured "salt"
            (form "alice" "p4ss" "a@x.com") one_user)).
Proof.
  split.
  - apply (proj1 (register_duplicate_credential (H := Reference.hasher) configured
             "salt" "salt" (form "bob" "p4ss" "other@x.com")
             (form "bob" "p4ss" "other@x.com") one_user one_user
             (json_error 400 "") bob eq_refl)).
    + apply list_elem_of_here.
    + left. reflexivity.
  - apply (proj2 (register_duplicate_credential (H := Reference.hasher) configured
             "salt" "pepper" (form "alice" "p4ss" "a@x.com")
             (form "carol" "p4ss" "a@x.com") one_user _
             (json_message 201 "User registered successfully") bob eq_refl)).
    + reflexivity.
    + reflexivity.
    + right. reflexivity.
Defined.

Lemma guard_rejections_example :
  authenticateJWT (H0 := Reference.codec) configured 1000 open_door
    (mkRequest None ∅ None) one_user =
    (json_error 401 "Authorization header is missing", one_user) ∧
  authenticateJWT (H0 := Reference.codec) configured 1000 open_door
    (bearer ("Bearer " +:+ forged_token)) one_user =
    (json_error 403 "Invalid token", one_user) ∧
  authenticateJWT (H0 := Reference.codec) configured 1000 open_door
    (bearer "Bearer") one_user =
    (json_error 403 "Invalid token", one_user).
Proof.
  split; [|split].
  - apply (guard_rejections (H0 := Reference.codec) configured 1000 open_door
             (mkRequest None ∅ None) one_user); [discriminate|reflexivity].
  - apply (guard_rejections (H0 := Reference.codec) configured 1000 open_door
             (bearer ("Bearer " +:+ forged_token)) one_user);
      [discriminate|reflexivity|vm_compute; reflexivity].
  - apply (guard_rejections (H0 := Reference.codec) configured 1000 open_door
             (bearer "Bearer") one_user) with (h := "Bearer");
      [discriminate|reflexivity|discriminate|reflexivity].
Defined.

Lemma guard_ignores_scheme_example :
  authenticateJWT (H0 := Reference.codec) configured 2000 open_door
    (bearer ("Token " +:+ bob_token)) one_user =
  open_door (mkRequest (Some ("Token " +:+ bob_token)) ∅ (Some 7)) one_user.
Proof.
  apply (guard_ignores_scheme (H0 := Reference.codec) configured 2000 open_door
           (bearer ("Token " +:+ bob_token)) one_user "Token" bob_token
           (mkDecoded (mkPayload 7 "bob" "b@x.com") 1000 (1000 + one_hour)));
    vm_compute; reflexivity.
Defined.

Lemma guard_accepts_issued_rejects_foreign_and_expired_example :
  authenticateJWT (H0 := Reference.codec) configured 4599 open_door
    (bearer ("Bearer " +:+ bob_token)) one_user =
    open_door (mkRequest (Some ("Bearer " +:+ bob_token)) ∅ (Some 7)) one_user ∧
  authenticateJWT (H0 := Reference.codec) configured 2000 open_door
    (bearer ("Bearer " +:+ forged_token)) one_user =
    (json_error 403 "Invalid token", one_user) ∧
  authenticateJWT (H0 := Reference.codec) configured 4600 open_door
    (bearer ("Bearer " +:+ bob_token)) one_user =
    (json_error 403 "Invalid token", one_user).
Proof.
  split; [|split].
  - apply (proj1 (guard_accepts_issued_rejects_foreign_and_expired
             (H := Reference.hasher) (H0 := Reference.codec) configured
             1000 4599 open_door (form "bob" "hunter2" "")
             (bearer ("Bearer " +:+ bob_token)) one_user one_user
             bob_token 7 (mkPayload 7 "bob" "b@x.com") "guess"));
      vm_compute; reflexivity.
  - apply (proj1 (proj2 (guard_accepts_issued_rejects_foreign_and_expired
             (H := Reference.hasher) (H0 := Reference.codec) configured
             1000 2000 open_door (form "bob" "hunter2" "")
             (bearer ("Bearer " +:+ forged_token)) one_user one_user
             bob_token 7 (mkPayload 7 "bob" "b@x.com") "guess")));
      [discriminate|discriminate|reflexivity].
  - apply (proj2 (proj2 (proj2 (guard_accepts_issued_rejects_foreign_and_expired
             (H := Reference.hasher) (H0 := Reference.codec) configured
             1000 4600 open_door (form "bob" "hunter2" "")
             (bearer ("Bearer " +:+ bob_token)) one_user one_user
             bob_token 7 (mkPayload 7 "bob" "b@x.com") "guess"))));
      [vm_compute; reflexivity|discriminate|reflexivity].
Defined.

(** The profile that bob's token reads back. *)
Definition bob_profile : response :=
  mkResponse 200 [("username", JString "bob"); ("email", JString "b@x.com")].

Lemma profile_projection_example :
  get_getUser (H0 := Reference.codec) configured 2000
    (bearer ("Bearer " +:+ bob_token)) one_user = (bob_profile, one_user) ∧
  ∃ d u,
    jwt.verify (H := Reference.codec)
      (presented (bearer ("Bearer " +:+ bob_token))) (secret_key configured) 2000 = Some d ∧
    looked_up (Some (p_userID (claims d))) (db one_user) = Some u ∧
    u ∈ db one_user ∧
    body bob_profile =
      [("username", JString (username u)); ("email", JString (email u))] ∧
    (∀ k v, (k, v) ∈ body bob_profile → k ≠ "password") ∧
    one_user = one_user.
Proof.
  split; [vm_compute; reflexivity|].
  apply (profile_projection (H0 := Reference.codec) configured 2000
           (bearer ("Bearer " +:+ bob_token)) one_user one_user bob_profile);
    vm_compute; reflexivity.
Defined.

Lemma missing_secret_degrades_example :
  (∃ warnings, start without_secret = Listening warnings) ∧
  (∀ now next req w,
     authenticateJWT (H0 := Reference.codec) without_secret now next req w =
       (json_error 500 "Server misconfigured (no SECRET_KEY)", w)) ∧
  (∀ now req w,
     post_login (H := Reference.hasher) (H0 := Reference.codec) without_secret now req w =
       (json_error 500 "Server misconfigured (no SECRET_KEY)", w)).
Proof.
  apply (missing_secret_degrades (H := Reference.hasher) (H0 := Reference.codec)
           without_secret eq_refl).
Defined.


Lemma store_only_grows_example :
  db one_user `prefix_of`
    db (run (H := Reference.hasher) (H0 := Reference.codec) configured
          [Register "salt" (form "alice" "p4ss" "a@x.com");
           Login 1000 (form "alice" "p4ss" "");
           Register "salt" (form "alice" "again" "a2@x.com");
           GetProfile 2000 (bearer ("Bearer " +:+ bob_token))]
          one_user).
Proof.
  apply (store_only_grows (H := Reference.hasher) (H0 := Reference.codec) configured).
Defined.

(** The example of the specification: register, log in, read the profile
    back with the token. *)
Example alice_round_trip :
  let r1 := post_register (H := Reference.hasher) configured "salt"
              (form "alice" "p4ss" "a@x.com") (mkWorld [] []) in
  let r2 := post_login (H := Reference.hasher) (H0 := Reference.codec) configured 1000
              (form "alice" "p4ss" "") (snd r1) in
  status (fst r1) = 201 ∧ status (fst r2) = 200 ∧
  ∃ tok, body (fst r2) !! 0%nat = Some ("token", JString tok) ∧
    fst (get_getUser (H0 := Reference.codec) configured 1500
           (bearer ("Bearer " +:+ tok)) (snd r2)) =
    mkResponse 200 [("username", JString "alice"); ("email", JString "a@x.com")].
Proof. vm_compute. repeat split. eexists. split; reflexivity. Qed.

(** *** Where the specification and the code part *)

(** C4 as stated fails twice. Without a signing secret the guard answers
    a request that has no [Authorization] header with 500, not 401. And a
    header that is present but empty, which has no token segment, is
    answered 401, not 403. *)
Lemma guard_rejections_counterexample :
  (authorization (mkRequest None ∅ None) = None ∧
   authenticateJWT (H0 := Reference.codec) without_secret 1000 open_door
     (mkRequest None ∅ None) one_user =
     (json_error 500 "Server misconfigured (no SECRET_KEY)", one_user) ∧
   status (fst (authenticateJWT (H0 := Reference.codec) without_secret 1000 open_door
                  (mkRequest None ∅ None) one_user)) ≠ 401) ∧
  (authorization (bearer "") = Some "" ∧
   jwt.verify (H := Reference.codec) (presented (bearer "")) (secret_key configured) 1000 = None ∧
   authenticateJWT (H0 := Reference.codec) configured 1000 open_door
     (bearer "") one_user =
     (json_error 401 "Authorization header is missing", one_user) ∧
   status (fst (authenticateJWT (H0 := Reference.codec) configured 1000 open_door
                  (bearer "") one_user)) ≠ 403).
Proof. repeat split; discriminate. Qed.

(** C2. The two failures of [POST /login] can be told apart when the
    request carries no password: on a configured server that stores bob,
    the body [{ username: "bob" }] makes [bcrypt.compare] throw, which the
    [catch] block logs and answers 500 "Failed to log in", while the body
    [{ username: "mallory" }], which names no stored user, is answered 400
    "Invalid credentials". *)
Lemma login_reveals_stored_username :
  User.first_match
    (addressed (mkRequest None {[ "username" := "bob" ]} None)) (db one_user) = Some bob ∧
  User.first_match
    (addressed (mkRequest None {[ "username" := "mallory" ]} None)) (db one_user) = None ∧
  post_login (H := Reference.hasher) (H0 := Reference.codec) configured 1000
    (mkRequest None {[ "username" := "bob" ]} None) one_user =
    (json_error 500 "Failed to log in",
     mkWorld [bob] [("Error in /login:", BcryptArgumentsRequired)]) ∧
  post_login (H := Reference.hasher) (H0 := Reference.codec) configured 1000
    (mkRequest None {[ "username" := "mallory" ]} None) one_user =
    (json_error 400 "Invalid credentials", one_user) ∧
  fst (post_login (H := Reference.hasher) (H0 := Reference.codec) configured 1000
         (mkRequest None {[ "username" := "bob" ]} None) one_user) ≠
  fst (post_login (H := Reference.hasher) (H0 := Reference.codec) configured 1000
         (mkRequest None {[ "username" := "mallory" ]} None) one_user).
Proof. repeat split; discriminate. Qed.

(** C6 as stated fails: without a signing secret the guard and the login
    route answer 500, not the 503 of a service-unavailable response. *)
Lemma missing_secret_counterexample :
  SECRET_KEY without_secret = None ∧
  fst (authenticateJWT (H0 := Reference.codec) without_secret 1000 open_door
         (bearer ("Bearer " +:+ bob_token)) one_user) =
    json_error 500 "Server misconfigured (no SECRET_KEY)" ∧
  fst (post_login (H := Reference.hasher) (H0 := Reference.codec) without_secret 1000
         (form "bob" "hunter2" "") one_user) =
    json_error 500 "Server misconfigured (no SECRET_KEY)" ∧
  status (json_error 500 "Server misconfigured (no SECRET_KEY)") ≠ 503.
Proof. repeat split; discriminate. Qed.

(** * Further properties of the routes *)

(** ** The collection keeps the promises of its schema *)

Section schema.
Context `{PasswordHasher} `{TokenCodec}.
Variable e : process_env.

(** [required: true] on the three paths (lines 254-256). *)
Definition valid_document (u : user) : Prop :=
  username u ≠ EmptyString ∧ password u ≠ EmptyString ∧ email u ≠ EmptyString.

(** [unique: true] on [username] and [email], and the unique [_id]. *)
Definition schema_holds (docs : list user) : Prop :=
  Forall valid_document docs ∧
  NoDup (username <$> docs) ∧ NoDup (email <$> docs) ∧ NoDup (_id <$> docs).

(** What an empty answer of the [$or] query says about the store. *)
Lemma taken_by_none (req : request) (docs : list user) (uname mail : string) :
  User.first_match (taken req) docs = None →
  req_body req !! "username" = Some uname →
  req_body req !! "email" = Some mail →
  ∀ u, u ∈ docs → username u ≠ uname ∧ email u ≠ mail.
Proof.
  rewrite first_match_None. intros Hn Hu Hm u Hin.
  specialize (Hn u Hin). unfold taken, User.either in Hn.
  rewrite Hu, Hm in Hn. simpl in Hn.
  apply orb_false_elim in Hn as [H1 H2].
  apply bool_decide_eq_false in H1, H2. split; congruence.
Qed.

Lemma NoDup_snoc_fresh {A B} (f : A → B) (l : list A) (x : A) :
  NoDup (f <$> l) → (∀ y, y ∈ l → f y ≠ f x) → NoDup (f <$> (l ++ [x])).
Proof.
  intros Hl Hx. rewrite fmap_app. apply NoDup_app. split; [done|]. split.
  - intros b Hb Hb'. apply list_elem_of_fmap in Hb as (y & -> & Hy).
    simpl in Hb'. apply list_elem_of_singleton in Hb'. by apply (Hx y Hy).
  - simpl. apply NoDup_singleton.
Qed.

Lemma register_keeps_schema (salt : string) (req : request) (w : world) :
  schema_holds (db w) → schema_holds (db (snd (post_register e salt req w))).
Proof.
  intros Hs. destruct (post_register_outcome e salt req w); simpl; try done.
  destruct Hs as (Hv & Hu & Hm & Hi).
  pose proof (taken_by_none req (db w) uname mail) as Hfree.
  repeat split.
  - apply Forall_app. split; [done|]. apply Forall_singleton.
    repeat split; simpl; [done|apply hash_not_empty|done].
  - apply NoDup_snoc_fresh; [done|]. intros y Hy. simpl. by apply Hfree.
  - apply NoDup_snoc_fresh; [done|]. intros y Hy. simpl. by apply Hfree.
  - apply NoDup_snoc_fresh; [done|]. intros y Hy. simpl.
    pose proof (fresh_id_above (db w) y Hy). lia.
Qed.

Lemma serve_keeps_schema (op : operation) (w : world) :
  schema_holds (db w) → schema_holds (db (snd (serve e op w))).
Proof.
  destruct op as [salt req|now req|now req]; simpl.
  - apply register_keeps_schema.
  - by rewrite login_keeps_store.
  - by rewrite get_getUser_keeps_store.
Qed.

(** X1. A store in which every document has non-empty username, password
    and email, and no two documents share a username, an email or an
    identifier, is still such a store after any sequence of requests. *)
Theorem schema_preserved (ops : list operation) (w : world) :
  schema_holds (db w) → schema_holds (db (run e ops w)).
Proof.
  revert w. induction ops as [|op ops IH]; intros w Hs; [done|].
  simpl. apply IH. by apply serve_keeps_schema.
Qed.

(** X2. A 201 from [POST /register] means that exactly one document was
    appended, carrying the username and email of the request and a hash
    that [bcrypt.compare] accepts for the password of the request, and
    that the console was left alone; any other answer leaves the stored
    documents as they were. *)
Theorem register_effect (salt : string) (req : request) (w : world) :
  (status (fst (post_register e salt req w)) = 201 →
   ∃ uname pass mail stored,
     req_body req !! "username" = Some uname ∧
     req_body req !! "password" = Some pass ∧
     req_body req !! "email" = Some mail ∧
     snd (post_register e salt req w) =
       mkWorld (db w ++ [mkUser (User.fresh_id (db w)) uname stored mail]) (console w) ∧
     hash_matches pass stored = true) ∧
  (status (fst (post_register e salt req w)) ≠ 201 →
   db (snd (post_register e salt req w)) = db w).
Proof.
  split.
  - intros Hs.
    destruct (post_register e salt req w) as [r w'] eqn:Hr. simpl in Hs.
    destruct (register_created_inv e salt req w w' r Hr Hs)
      as (uname & pass & mail & _ & Hu & Hp & Hm & _ & ->).
    exists uname, pass, mail, (hash_with_salt pass 10 salt).
    repeat split; try done. apply hash_matches_own.
  - intros Hs. by destruct (post_register_outcome e salt req w).
Qed.

(** X3. On a configured store without a matching document, a registration
    whose username or email is missing or empty, but whose password is
    present, gets through the hashing call and fails at [save]: the
    answer is 500, the validation error is logged and nothing is stored. *)
Theorem register_incomplete (salt : string) (req : request) (w : world) (pass : string) :
  truthy (MONGO_URI e) = true →
  User.first_match (taken req) (db w) = None →
  req_body req !! "password" = Some pass →
  truthy (req_body req !! "username") = false ∨
  truthy (req_body req !! "email") = false →
  post_register e salt req w =
    (json_error 500 "Failed to register user",
     mkWorld (db w) (console w ++ [("Error in /register:", MongooseValidationError)])).
Proof.
  intros Hm Hn Hp Hmiss.
  destruct (post_register_outcome e salt req w); try congruence; try reflexivity.
  exfalso.
  repeat match goal with
         | Hq : req_body req !! _ = Some _ |- _ => rewrite Hq in Hmiss; clear Hq
         end.
  destruct Hmiss as [Hx|Hx]; simpl in Hx; by destruct uname, mail.
Qed.

(** X4. On a configured server a login request without a password field
    is answered 500, with the error logged, when the username is stored,
    and 400 when it is not: unlike a wrong password, a missing one tells
    the caller whether the account exists. *)
Theorem login_without_password (now : N) (req : request) (w : world) :
  truthy (MONGO_URI e) = true → secret_key e ≠ EmptyString →
  req_body req !! "password" = None →
  post_login e now req w =
    match User.first_match (addressed req) (db w) with
    | Some _ =>
        (json_error 500 "Failed to log in",
         mkWorld (db w) (console w ++ [("Error in /login:", BcryptArgumentsRequired)]))
    | None => (json_error 400 "Invalid credentials", w)
    end.
Proof.
  intros Hm Hs Hp.
  destruct (post_login_outcome e now req w); try congruence;
    match goal with Hf : User.first_match _ _ = _ |- _ => by rewrite Hf end.
Qed.

End schema.

(** ** Tokens and profiles *)

Section sessions.
Context `{PasswordHasher} `{TokenCodec}.
Variable e : process_env.

Lemma looked_up_unique (docs : list user) (u : user) :
  NoDup (_id <$> docs) → u ∈ docs → looked_up (Some (_id u)) docs = Some u.
Proof.
  unfold looked_up, User.first_match. intros Hnd Hu.
  induction docs as [|x docs IH]; [by apply elem_of_nil in Hu|].
  simpl in *. apply NoDup_cons in Hnd as [Hx Hnd].
  apply elem_of_cons in Hu as [->|Hu].
  - by rewrite decide_True by (by apply bool_decide_eq_true_2).
  - rewrite decide_False.
    + specialize (IH Hnd Hu).
      destruct (list_find _ docs) as [[i y]|]; [|done].
      simpl in *. by injection IH as ->.
    + intros Heq%bool_decide_eq_true. apply Hx. rewrite Heq.
      apply list_elem_of_fmap. by exists u.
Qed.

(** X5. Login and the profile route compose: on a store whose identifiers
    are distinct, the token that a successful login returns, presented as
    [Bearer token] within the hour, makes [GET /getUser] answer 200 with
    the username that logged in and the email stored with it. *)
Theorem login_then_profile
  (t0 now : N) (log req : request) (w : world) (tok uname : string) (id : ObjectId) :
  NoDup (_id <$> db w) →
  req_body log !! "username" = Some uname →
  issued e t0 log w tok id →
  authorization req = Some ("Bearer" +:+ String space tok) →
  now < t0 + one_hour →
  ∃ mail,
    get_getUser e now req w =
      (mkResponse 200 [("username", JString uname); ("email", JString mail)], w) ∧
    ∃ u, u ∈ db w ∧ _id u = id ∧ username u = uname ∧ email u = mail.
Proof.
  intros Hnd Hu Hi Hh Hn. unfold issued in Hi.
  destruct (post_login_outcome e t0 log w); try discriminate Hi.
  simpl in Hi. injection Hi as <- <-.
  match goal with Hf : User.first_match _ _ = Some _ |- _ =>
    apply first_match_Some in Hf as [Hin Hname] end.
  unfold addressed, User.named in Hname. rewrite Hu in Hname. simpl in Hname.
  apply bool_decide_eq_true in Hname.
  exists (email u). split; [|by exists u].
  set (claimed := mkPayload (_id u) (username u) (email u)) in *.
  unfold get_getUser.
  rewrite (guard_passes e now (getUser e) req w
             (encode claimed (secret_key e) t0 one_hour)
             (mkDecoded claimed t0 (t0 + one_hour))).
  - rewrite getUser_cases.
    match goal with Hm : truthy (MONGO_URI e) = true |- _ => rewrite Hm end.
    simpl. change (User.first_match _ (db w)) with (looked_up (Some (_id u)) (db w)).
    rewrite (looked_up_unique _ _ Hnd Hin). by rewrite Hname.
  - rewrite Hh. apply truthy_with_space.
  - eapply presented_second; eauto using encode_no_space.
  - simpl. by apply decode_encode.
Qed.

(** X6. A token that verifies but names an identifier that no stored
    document carries is answered 404 "User not found" on a configured
    store, and nothing changes. *)
Theorem profile_not_found
  (now : N) (req : request) (w : world) (token : string) (d : decoded) :
  truthy (MONGO_URI e) = true →
  truthy (authorization req) = true → presented req = Some token →
  jwt.verify (Some token) (secret_key e) now = Some d →
  (∀ u, u ∈ db w → _id u ≠ p_userID (claims d)) →
  get_getUser e now req w = (json_error 404 "User not found", w).
Proof.
  intros Hm Hh Hp Hv Hnone. unfold get_getUser.
  rewrite (guard_passes e now (getUser e) req w token d Hh Hp Hv).
  rewrite getUser_cases, Hm. simpl.
  replace (User.first_match _ (db w)) with (@None user); [done|].
  symmetry. apply first_match_None. intros u Hu.
  apply bool_decide_eq_false_2. by apply Hnone.
Qed.

(** The segments of a header with something after the token. *)
Lemma presented_with_trailer (req : request) (scheme token rest : string) :
  authorization req =
    Some (scheme +:+ String space (token +:+ String space rest)) →
  free_of space scheme = true → free_of space token = true →
  presented req = Some token.
Proof.
  intros Hh Hs Ht. unfold presented. rewrite Hh. simpl.
  by rewrite !split_app.
Qed.

(** X7. Whatever follows the token in the header is ignored: a header
    [scheme token rest], with any [rest] after a second space, is let
    through exactly when [token] verifies. *)
Theorem guard_ignores_trailer
  (now : N) (next : handler) (req : request) (w : world)
  (scheme token rest : string) :
  secret_key e ≠ EmptyString →
  authorization req =
    Some (scheme +:+ String space (token +:+ String space rest)) →
  free_of space scheme = true → free_of space token = true →
  authenticateJWT e now next req w =
    match decode token (secret_key e) now with
    | Some d => next (identified req d) w
    | None => (json_error 403 "Invalid token", w)
    end.
Proof.
  intros Hk Hh Hs Ht. rewrite (authenticateJWT_cases e now next req w Hk).
  rewrite (presented_with_trailer req scheme token rest Hh Hs Ht), Hh.
  by destruct scheme.
Qed.

(** X8. Without [MONGO_URI] no route touches the world: registration and
    login answer 503 whatever the request (login even when the secret is
    missing too), and the profile route answers 503 once the guard has
    let the request through, the guard's own refusals coming first. *)
Theorem store_unconfigured (salt : string) (now : N) (req : request) (w : world) :
  truthy (MONGO_URI e) = false →
  post_register e salt req w = (json_error 503 "Database not configured", w) ∧
  post_login e now req w = (json_error 503 "Database not configured", w) ∧
  get_getUser e now req w =
    (if is_empty (secret_key e)
     then json_error 500 "Server misconfigured (no SECRET_KEY)"
     else if truthy (authorization req)
     then match jwt.verify (presented req) (secret_key e) now with
          | Some _ => json_error 503 "Database not configured"
          | None => json_error 403 "Invalid token"
          end
     else json_error 401 "Authorization header is missing", w).
Proof.
  intros Hm. repeat split.
  - unfold post_register. by rewrite Hm.
  - unfold post_login. by rewrite Hm.
  - unfold get_getUser, authenticateJWT. fold (presented req).
    destruct (is_empty (secret_key e)); [done|].
    destruct (truthy (authorization req)); [|done]. simpl.
    destruct (jwt.verify _ _ _); [|done].
    rewrite getUser_cases. by rewrite Hm.
Qed.

(** X9. The routes read only what they are sent for: registration and
    login answer from the body alone, whatever [Authorization] header or
    identity the request carries, and the profile route answers from the
    header alone, whatever the body. *)
Theorem routes_read_only_their_input
  (salt : string) (now : N) (req req' : request) (w : world) :
  (req_body req = req_body req' →
   post_register e salt req w = post_register e salt req' w ∧
   post_login e now req w = post_login e now req' w) ∧
  (authorization req = authorization req' →
   get_getUser e now req w = get_getUser e now req' w).
Proof.
  split.
  - intros Hb. unfold post_register, post_login. by rewrite Hb.
  - intros Hh. unfold get_getUser, authenticateJWT. rewrite Hh.
    destruct (is_empty _); [done|]. destruct (negb _); [done|].
    destruct (jwt.verify _ _ _); [|done].
    by rewrite !getUser_cases.
Qed.


End sessions.

(** * The routes outside authentication *)

(** ** Replies that are not plain string objects *)

Inductive jfield :=
  | FString (s : string)
  | FBool (b : bool)
  | FStrings (items : list string).

Inductive content :=
  | Json (fields : list (string * jfield))
  | Text (s : string).

Record reply := mkReply {
  code : N;
  sent : content
}.

(** [GET /health], [GET /] and [GET /api] (lines 346-348). *)
Definition get_health : reply :=
  mkReply 200 (Json [("message", FString "API is healthy")]).

Definition get_root : reply :=
  mkReply 200 (Text "Hello! this is Jaturaput's World!").

Definition get_api : reply :=
  mkReply 200 (Json [("fruits", FStrings ["apple"; "orange"; "banana"])]).

(** ** CORS (lines 209-218) *)

(** [[process.env.CLIENT_URL, "http://localhost:5173"].filter(Boolean)] *)
Definition allowlist (CLIENT_URL : option string) : list string :=
  omap (λ v : option string, if truthy v then v else None)
       [CLIENT_URL; Some "http://localhost:5173"].

(** The two ways the [origin] callback calls [cb]. *)
Inductive cors_verdict :=
  | Allowed
  | NotAllowed (message : string).

Definition cors_origin (CLIENT_URL origin : option string) : cors_verdict :=
  if negb (truthy origin) ||
     bool_decide (default EmptyString origin ∈ allowlist CLIENT_URL)
  then Allowed
  else NotAllowed "Not allowed by CORS".

(** ** The contact route (lines 350-379) *)

Record mail_env := mkMailEnv {
  SENDGRID_API_KEY : option string;
  MAIL_FROM : option string
}.

(** The object handed to [sgMail.send]. *)
Record mail := mkMail {
  mail_to : option string;
  mail_from : option string;
  mail_subject : option string;
  mail_text : option string;
  mail_replyTo : option string
}.

(** How [sgMail.send] settles: it resolves, or rejects with an error whose
    [response.body] may be missing. *)
Inductive delivery :=
  | Delivered
  | Failed (response_body : option string).

(** What [console.error] is given about a failed delivery: the body of
    the provider's response, or the error itself. *)
Inductive logged :=
  | LoggedBody (response_body : string)
  | LoggedError (response_body : option string).

(** The messages SendGrid accepted and the errors written to the
    console. *)
Record mailer := mkMailer {
  outbox : list mail;
  mail_errors : list logged
}.

Definition reply_error (c : N) (msg : string) : reply :=
  mkReply c (Json [("error", FString msg)]).

Section contact.
Variable me : mail_env.
Variable sgMail_send : mail → delivery.

(** [POST /api/contact/send]; [body] is [req.body], [None] when the
    request has none. *)
Definition contact_send (body : option (gmap string string))
  : mailer → reply * mailer :=
  λ m,
    let fields := default ∅ body in
    let to := fields !! "to" in
    let subject := fields !! "subject" in
    let text := fields !! "body" in
    let replyTo := fields !! "replyTo" in
    if negb (truthy to) || negb (truthy subject) || negb (truthy text)
    then (reply_error 400 "Missing fields", m)
    else if negb (truthy (SENDGRID_API_KEY me))
    then (reply_error 503 "Email not configured", m)
    else if negb (truthy (MAIL_FROM me))
    then (reply_error 503 "MAIL_FROM not configured", m)
    else
      let msg := mkMail to (MAIL_FROM me) subject text
                   (if truthy replyTo then replyTo else None) in
      match sgMail_send msg with
      | Delivered =>
          (mkReply 200 (Json [("ok", FBool true)]),
           mkMailer (outbox m ++ [msg]) (mail_errors m))
      | Failed details =>
          (mkReply 500
             (Json (("error", FString "mail_failed") ::
                    match details with
                    | Some d => [("details", FString d)]
                    | None => []
                    end)),
           mkMailer (outbox m)
             (mail_errors m ++
                [if truthy details
                 then LoggedBody (default EmptyString details)
                 else LoggedError details]))
      end.

(** The same route in the earlier revision (lines 152-168): no
    configuration checks, and no [details] in the 500. *)
Definition legacy_contact_send (body : option (gmap string string))
  : mailer → reply * mailer :=
  λ m,
    let fields := default ∅ body in
    let to := fields !! "to" in
    let subject := fields !! "subject" in
    let text := fields !! "body" in
    let replyTo := fields !! "replyTo" in
    if negb (truthy to) || negb (truthy subject) || negb (truthy text)
    then (reply_error 400 "Missing fields", m)
    else
      let msg := mkMail to (MAIL_FROM me) subject text
                   (if truthy replyTo then replyTo else None) in
      match sgMail_send msg with
      | Delivered =>
          (mkReply 200 (Json [("ok", FBool true)]),
           mkMailer (outbox m ++ [msg]) (mail_errors m))
      | Failed details =>
          (reply_error 500 "mail_failed",
           mkMailer (outbox m) (mail_errors m ++ [LoggedError details]))
      end.

End contact.

(** ** Properties of the contact route *)

Section contact_properties.
Variable me : mail_env.
Variable sgMail_send : mail → delivery.

(** The three fields the route insists on. *)
Definition complete (body : option (gmap string string)) : bool :=
  truthy (default ∅ body !! "to") &&
  truthy (default ∅ body !! "subject") &&
  truthy (default ∅ body !! "body").

(** The message the route builds from a request. *)
Definition composed (body : option (gmap string string)) : mail :=
  mkMail (default ∅ body !! "to") (MAIL_FROM me)
         (default ∅ body !! "subject") (default ∅ body !! "body")
         (if truthy (default ∅ body !! "replyTo")
          then default ∅ body !! "replyTo" else None).

Lemma incomplete_guard (body : option (gmap string string)) :
  negb (truthy (default ∅ body !! "to")) ||
  negb (truthy (default ∅ body !! "subject")) ||
  negb (truthy (default ∅ body !! "body")) = negb (complete body).
Proof.
  unfold complete.
  by destruct (truthy (_ !! "to")), (truthy (_ !! "subject")), (truthy (_ !! "body")).
Qed.

(** Every way [POST /api/contact/send] can end. *)
Lemma contact_send_cases (body : option (gmap string string)) (m : mailer) :
  contact_send me sgMail_send body m =
    if negb (complete body) then (reply_error 400 "Missing fields", m)
    else if negb (truthy (SENDGRID_API_KEY me))
    then (reply_error 503 "Email not configured", m)
    else if negb (truthy (MAIL_FROM me))
    then (reply_error 503 "MAIL_FROM not configured", m)
    else match sgMail_send (composed body) with
         | Delivered =>
             (mkReply 200 (Json [("ok", FBool true)]),
              mkMailer (outbox m ++ [composed body]) (mail_errors m))
         | Failed details =>
             (mkReply 500
                (Json (("error", FString "mail_failed") ::
                       match details with
                       | Some d => [("details", FString d)]
                       | None => []
                       end)),
              mkMailer (outbox m)
                (mail_errors m ++
                   [if truthy details
                    then LoggedBody (default EmptyString details)
                    else LoggedError details]))
         end.
Proof. unfold contact_send. cbv zeta. by rewrite incomplete_guard. Qed.

(** X11. A contact request without a body, or with [to], [subject] or
    [body] missing or empty, is answered 400 "Missing fields" before any
    configuration is looked at: in every environment, in both revisions,
    without calling SendGrid and without logging. *)
Theorem contact_missing_fields (body : option (gmap string string)) (m : mailer) :
  complete body = false →
  contact_send me sgMail_send body m = (reply_error 400 "Missing fields", m) ∧
  legacy_contact_send me sgMail_send body m = (reply_error 400 "Missing fields", m).
Proof.
  intros Hc. split.
  - rewrite contact_send_cases. by rewrite Hc.
  - unfold legacy_contact_send. cbv zeta. rewrite incomplete_guard. by rewrite Hc.
Qed.

(** X12. A complete contact request on a server without
    [SENDGRID_API_KEY] is answered 503 "Email not configured"; with the
    key but without [MAIL_FROM], 503 "MAIL_FROM not configured". In both
    cases nothing is sent or logged. *)
Theorem contact_unconfigured (body : option (gmap string string)) (m : mailer) :
  complete body = true →
  (truthy (SENDGRID_API_KEY me) = false →
   contact_send me sgMail_send body m =
     (reply_error 503 "Email not configured", m)) ∧
  (truthy (SENDGRID_API_KEY me) = true → truthy (MAIL_FROM me) = false →
   contact_send me sgMail_send body m =
     (reply_error 503 "MAIL_FROM not configured", m)).
Proof.
  intros Hc. rewrite contact_send_cases, Hc. simpl.
  split; [by intros ->|by intros -> ->].
Qed.

(** X13. A complete contact request on a configured server hands SendGrid
    one message: the [to] and [subject] of the request, its [body] as
    text, [MAIL_FROM] as sender and the [replyTo] of the request unless it
    is missing or empty. When SendGrid accepts, the answer is 200
    [{ ok: true }] and nothing is logged; when it refuses, the answer is
    500 "mail_failed" with the provider's response body as [details] when
    there is one, and the failure is logged. *)
Theorem contact_delivery (body : option (gmap string string)) (m : mailer) :
  complete body = true →
  truthy (SENDGRID_API_KEY me) = true → truthy (MAIL_FROM me) = true →
  (sgMail_send (composed body) = Delivered →
   contact_send me sgMail_send body m =
     (mkReply 200 (Json [("ok", FBool true)]),
      mkMailer (outbox m ++ [composed body]) (mail_errors m))) ∧
  (∀ d, sgMail_send (composed body) = Failed (Some d) → d ≠ EmptyString →
   contact_send me sgMail_send body m =
     (mkReply 500 (Json [("error", FString "mail_failed"); ("details", FString d)]),
      mkMailer (outbox m) (mail_errors m ++ [LoggedBody d]))) ∧
  (sgMail_send (composed body) = Failed None →
   contact_send me sgMail_send body m =
     (reply_error 500 "mail_failed",
      mkMailer (outbox m) (mail_errors m ++ [LoggedError None]))).
Proof.
  intros Hc Hk Hf. rewrite contact_send_cases, Hc, Hk, Hf. simpl.
  split; [|split].
  - by intros ->.
  - intros d -> Hd. by destruct d.
  - by intros ->.
Qed.

(** A message with a recipient, a subject, a text and the configured
    sender, whose [replyTo] is either absent or non-empty. *)
Definition deliverable (msg : mail) : Prop :=
  truthy (mail_to msg) = true ∧ truthy (mail_subject msg) = true ∧
  truthy (mail_text msg) = true ∧
  truthy (mail_from msg) = true ∧ mail_from msg = MAIL_FROM me ∧
  (mail_replyTo msg = None ∨ truthy (mail_replyTo msg) = true).

Lemma composed_deliverable (body : option (gmap string string)) :
  complete body = true → truthy (MAIL_FROM me) = true →
  deliverable (composed body).
Proof.
  unfold complete. intros [[Ht Hs]%andb_prop Hb]%andb_prop Hf.
  repeat split; try done. simpl.
  destruct (truthy (default ∅ body !! "replyTo")) eqn:Hr; [by right|by left].
Qed.

(** The mailer after a sequence of contact requests. *)
Definition contact_run (bodies : list (option (gmap string string))) (m : mailer)
  : mailer :=
  foldl (λ m body, snd (contact_send me sgMail_send body m)) m bodies.

Lemma contact_send_outbox (body : option (gmap string string)) (m : mailer) :
  outbox (snd (contact_send me sgMail_send body m)) =
    if bool_decide (code (fst (contact_send me sgMail_send body m)) = 200)
    then outbox m ++ [composed body] else outbox m.
Proof.
  rewrite contact_send_cases.
  destruct (negb (complete body)); [done|].
  destruct (negb (truthy (SENDGRID_API_KEY me))); [done|].
  destruct (negb (truthy (MAIL_FROM me))); [done|].
  by destruct (sgMail_send (composed body)).
Qed.

Lemma contact_send_deliverable (body : option (gmap string string)) (m : mailer) :
  Forall deliverable (outbox m) →
  Forall deliverable (outbox (snd (contact_send me sgMail_send body m))).
Proof.
  intros Hm. rewrite contact_send_cases.
  destruct (complete body) eqn:Hc; [|done]. simpl.
  destruct (truthy (SENDGRID_API_KEY me)); [|done]. simpl.
  destruct (truthy (MAIL_FROM me)) eqn:Hf; [|done]. simpl.
  destruct (sgMail_send (composed body)); [|done]. simpl.
  apply Forall_app. split; [done|].
  apply Forall_singleton. by apply composed_deliverable.
Qed.

(** X14. The outbox grows by the one message of the request exactly when
    the route answers 200 and is untouched otherwise; and every message
    that a sequence of contact requests adds to it has a recipient, a
    subject, a text and the configured sender, and no empty [replyTo]. *)
Theorem outbox_holds_deliverable_mail
  (bodies : list (option (gmap string string)))
  (body : option (gmap string string)) (m : mailer) :
  outbox (snd (contact_send me sgMail_send body m)) =
    (if bool_decide (code (fst (contact_send me sgMail_send body m)) = 200)
     then outbox m ++ [composed body] else outbox m) ∧
  (Forall deliverable (outbox m) →
   Forall deliverable (outbox (contact_run bodies m))).
Proof.
  split; [apply contact_send_outbox|].
  revert m. induction bodies as [|b bodies IH]; intros m Hm; [done|].
  simpl. apply IH. by apply contact_send_deliverable.
Qed.

(** X15. With [SENDGRID_API_KEY] and [MAIL_FROM] set, the two revisions
    of the contact route answer every request with the same status and
    leave the same outbox; their answers differ only in the [details] of a
    500. *)
Theorem contact_revisions_agree (body : option (gmap string string)) (m : mailer) :
  truthy (SENDGRID_API_KEY me) = true → truthy (MAIL_FROM me) = true →
  code (fst (legacy_contact_send me sgMail_send body m)) =
    code (fst (contact_send me sgMail_send body m)) ∧
  outbox (snd (legacy_contact_send me sgMail_send body m)) =
    outbox (snd (contact_send me sgMail_send body m)) ∧
  (code (fst (contact_send me sgMail_send body m)) ≠ 500 →
   fst (legacy_contact_send me sgMail_send body m) =
     fst (contact_send me sgMail_send body m)).
Proof.
  intros Hk Hf. rewrite contact_send_cases, Hk, Hf.
  unfold legacy_contact_send. cbv zeta. rewrite incomplete_guard.
  fold (composed body).
  destruct (negb (complete body)); [done|]. simpl.
  by destruct (sgMail_send (composed body)).
Qed.

End contact_properties.

(** ** Properties of the CORS check *)

Lemma allowlist_members (CLIENT_URL : option string) (o : string) :
  o ∈ allowlist CLIENT_URL ↔
  o = "http://localhost:5173" ∨ (o ≠ EmptyString ∧ CLIENT_URL = Some o).
Proof.
  unfold allowlist. destruct CLIENT_URL as [[|c s]|]; simpl.
  - rewrite list_elem_of_singleton. split; [by left|].
    intros [Ho|[Hne Hc]]; [done|]. injection Hc as <-. done.
  - rewrite elem_of_cons, list_elem_of_singleton. split.
    + intros [-> | ->]; [by right|by left].
    + intros [-> | [_ Hc]]; [by right|]. injection Hc as <-. by left.
  - rewrite list_elem_of_singleton. split; [by left|].
    intros [Ho|[_ Hc]]; [done|discriminate Hc].
Qed.

(** X16. The CORS check lets a request through exactly when it carries no
    [Origin] (or an empty one), when its origin is the development client
    [http://localhost:5173], or when its origin is the configured
    [CLIENT_URL]; an unset or empty [CLIENT_URL] admits nothing more. Any
    other origin is refused with "Not allowed by CORS". *)
Theorem cors_origin_allowed (CLIENT_URL origin : option string) :
  (cors_origin CLIENT_URL origin = Allowed ↔
   truthy origin = false ∨
   origin = Some "http://localhost:5173" ∨
   (truthy CLIENT_URL = true ∧ origin = CLIENT_URL)) ∧
  (cors_origin CLIENT_URL origin ≠ Allowed →
   cors_origin CLIENT_URL origin = NotAllowed "Not allowed by CORS").
Proof.
  unfold cors_origin. split.
  - destruct origin as [[|c o]|]; simpl; [by split; [left|]| |by split; [left|]].
    case_bool_decide as Hin; rewrite allowlist_members in Hin.
    + split; [intros _|done]. right.
      destruct Hin as [Hin|[_ Hin]]; [left; by rewrite Hin|right].
      split; [by rewrite Hin|done].
    + split; [done|]. intros [Hf|[Hl|[Hc Hsame]]]; [done| |]; exfalso; apply Hin.
      * left. congruence.
      * right. split; [done|]. by rewrite Hsame.
  - by destruct (negb (truthy origin) || bool_decide _).
Qed.

(** ** The two revisions of the authentication routes *)

(** X17. On a server with store and secret configured, both revisions
    start listening without a warning, their guards and profile handlers
    are equal, and registration and login give the same answers and leave
    the same documents (they differ only in the label they log under). *)
Theorem revisions_agree
  `{PasswordHasher} `{TokenCodec} (e : process_env)
  (salt : string) (now : N) (next : handler) (req : request) (w : world) :
  truthy (MONGO_URI e) = true → truthy (SECRET_KEY e) = true →
  Legacy.start e = start e ∧
  Legacy.authenticateJWT e now next req w = authenticateJWT e now next req w ∧
  Legacy.getUser req w = getUser e req w ∧
  fst (Legacy.post_register salt req w) = fst (post_register e salt req w) ∧
  db (snd (Legacy.post_register salt req w)) = db (snd (post_register e salt req w)) ∧
  fst (Legacy.post_login e now req w) = fst (post_login e now req w) ∧
  db (snd (Legacy.post_login e now req w)) = db (snd (post_login e now req w)).
Proof.
  intros Hm Hs.
  pose proof (legacy_post_register e Hm salt req w) as [Hr1 Hr2].
  pose proof (legacy_post_login e Hm Hs now req w) as [Hl1 Hl2].
  repeat split; try done.
  - rewrite (legacy_start_listens e Hs). unfold start.
    rewrite (proj2 (is_empty_false _) (secret_key_not_empty e Hs)).
    by rewrite Hm.
  - by apply legacy_authenticateJWT.
  - by apply legacy_getUser.
Qed.

(** ** Worked requests, continued *)

Definition carol : user :=
  mkUser 9 "carol" (Reference.reference_hash "swordfish" 10 "salt") "c@x.com".

Definition two_users : world := mkWorld [bob; carol] [].

Definition unconfigured : process_env := mkEnv None (Some "s3cret").

Lemma schema_preserved_example :
  schema_holds
    (db (run (H := Reference.hasher) (H0 := Reference.codec) configured
           [Register "salt" (form "alice" "p4ss" "a@x.com");
            Register "salt" (form "alice" "again" "a2@x.com");
            Register "salt" (form "dave" "p4ss" "b@x.com");
            Login 1000 (form "alice" "p4ss" "")]
           two_users)).
Proof.
  apply (schema_preserved (H := Reference.hasher) (H0 := Reference.codec)
           configured _ two_users).
  repeat split.
  - repeat constructor; discriminate.
  - apply (bool_decide_unpack (NoDup _)). vm_compute. exact I.
  - apply (bool_decide_unpack (NoDup _)). vm_compute. exact I.
  - apply (bool_decide_unpack (NoDup _)). vm_compute. exact I.
Defined.

Lemma register_effect_example :
  (∃ uname pass mail stored,
     req_body (form "alice" "p4ss" "a@x.com") !! "username" = Some uname ∧
     req_body (form "alice" "p4ss" "a@x.com") !! "password" = Some pass ∧
     req_body (form "alice" "p4ss" "a@x.com") !! "email" = Some mail ∧
     snd (post_register (H := Reference.hasher) configured "salt"
            (form "alice" "p4ss" "a@x.com") two_users) =
       mkWorld (db two_users ++ [mkUser (User.fresh_id (db two_users)) uname stored mail])
         (console two_users) ∧
     hash_matches (PasswordHasher := Reference.hasher) pass stored = true) ∧
  db (snd (post_register (H := Reference.hasher) configured "salt"
             (form "carol" "p4ss" "a@x.com") two_users)) = db two_users.
Proof.
  split.
  - apply (proj1 (register_effect (H := Reference.hasher) configured "salt"
                    (form "alice" "p4ss" "a@x.com") two_users)).
    reflexivity.
  - apply (proj2 (register_effect (H := Reference.hasher) configured "salt"
                    (form "carol" "p4ss" "a@x.com") two_users)).
    discriminate.
Defined.

Lemma register_incomplete_example :
  post_register (H := Reference.hasher) configured "salt"
    (form "" "p4ss" "a@x.com") two_users =
    (json_error 500 "Failed to register user",
     mkWorld [bob; carol] [("Error in /register:", MongooseValidationError)]).
Proof.
  apply (register_incomplete (H := Reference.hasher) configured "salt"
           (form "" "p4ss" "a@x.com") two_users "p4ss");
    [reflexivity|reflexivity|reflexivity|left; reflexivity].
Defined.

Lemma login_without_password_example :
  post_login (H := Reference.hasher) (H0 := Reference.codec) configured 1000
    (mkRequest None {[ "username" := "carol" ]} None) two_users =
    (json_error 500 "Failed to log in",
     mkWorld [bob; carol] [("Error in /login:", BcryptArgumentsRequired)]) ∧
  post_login (H := Reference.hasher) (H0 := Reference.codec) configured 1000
    (mkRequest None {[ "username" := "mallory" ]} None) two_users =
    (json_error 400 "Invalid credentials", two_users).
Proof.
  split.
  - etrans;
      [apply (login_without_password (H := Reference.hasher) (H0 := Reference.codec)
                configured 1000 (mkRequest None {[ "username" := "carol" ]} None)
                two_users);
         [reflexivity|discriminate|reflexivity]
      |reflexivity].
  - etrans;
      [apply (login_without_password (H := Reference.hasher) (H0 := Reference.codec)
                configured 1000 (mkRequest None {[ "username" := "mallory" ]} None)
                two_users);
         [reflexivity|discriminate|reflexivity]
      |reflexivity].
Defined.

(** A token for an account that the store no longer holds. *)
Definition ghost_token : string :=
  Reference.reference_encode (mkPayload 42 "ghost" "g@x.com") "s3cret" 1000 one_hour.

Lemma login_then_profile_example :
  ∃ mail,
    get_getUser (H0 := Reference.codec) configured 2000
      (bearer ("Bearer " +:+ bob_token)) two_users =
      (mkResponse 200 [("username", JString "bob"); ("email", JString mail)], two_users) ∧
    ∃ u, u ∈ db two_users ∧ _id u = 7 ∧ username u = "bob" ∧ email u = mail.
Proof.
  apply (login_then_profile (H := Reference.hasher) (H0 := Reference.codec)
           configured 1000 2000 (form "bob" "hunter2" "")
           (bearer ("Bearer " +:+ bob_token)) two_users bob_token "bob" 7);
    try reflexivity.
  apply (bool_decide_unpack (NoDup _)). vm_compute. exact I.
Defined.

Lemma profile_not_found_example :
  get_getUser (H0 := Reference.codec) configured 2000
    (bearer ("Bearer " +:+ ghost_token)) two_users =
    (json_error 404 "User not found", two_users).
Proof.
  apply (profile_not_found (H0 := Reference.codec) configured 2000
           (bearer ("Bearer " +:+ ghost_token)) two_users ghost_token
           (mkDecoded (mkPayload 42 "ghost" "g@x.com") 1000 (1000 + one_hour)));
    try (vm_compute; reflexivity).
  intros u Hu.
  apply elem_of_cons in Hu as [->|Hu]; [discriminate|].
  apply list_elem_of_singleton in Hu as ->. discriminate.
Defined.

Lemma guard_ignores_trailer_example :
  authenticateJWT (H0 := Reference.codec) configured 2000 open_door
    (bearer ("Bearer " +:+ bob_token +:+ " and more")) one_user =
  open_door (mkRequest (Some ("Bearer " +:+ bob_token +:+ " and more")) ∅ (Some 7))
    one_user.
Proof.
  etrans;
    [apply (guard_ignores_trailer (H0 := Reference.codec) configured 2000 open_door
              (bearer ("Bearer " +:+ bob_token +:+ " and more")) one_user
              "Bearer" bob_token "and more");
       [discriminate|vm_compute; reflexivity|reflexivity|vm_compute; reflexivity]
    |vm_compute; reflexivity].
Defined.

Lemma store_unconfigured_example :
  post_register (H := Reference.hasher) unconfigured "salt"
    (form "alice" "p4ss" "a@x.com") two_users =
    (json_error 503 "Database not configured", two_users) ∧
  post_login (H := Reference.hasher) (H0 := Reference.codec) unconfigured 1000
    (form "bob" "hunter2" "") two_users =
    (json_error 503 "Database not configured", two_users) ∧
  get_getUser (H0 := Reference.codec) unconfigured 1000
    (bearer ("Bearer " +:+ bob_token)) two_users =
    (json_error 503 "Database not configured", two_users).
Proof.
  split; [|split].
  - apply (proj1 (store_unconfigured (H := Reference.hasher) (H0 := Reference.codec)
                    unconfigured "salt" 1000 (form "alice" "p4ss" "a@x.com")
                    two_users eq_refl)).
  - apply (proj1 (proj2 (store_unconfigured (H := Reference.hasher)
                    (H0 := Reference.codec) unconfigured "salt" 1000
                    (form "bob" "hunter2" "") two_users eq_refl))).
  - etrans;
      [apply (proj2 (proj2 (store_unconfigured (H := Reference.hasher)
                (H0 := Reference.codec) unconfigured "salt" 1000
                (bearer ("Bearer " +:+ bob_token)) two_users eq_refl)))
      |vm_compute; reflexivity].
Defined.

Lemma routes_read_only_their_input_example :
  (post_register (H := Reference.hasher) configured "salt"
     (mkRequest (Some "Bearer nonsense") {[ "username" := "alice" ]} (Some 3)) two_users =
   post_register (H := Reference.hasher) configured "salt"
     (mkRequest None {[ "username" := "alice" ]} None) two_users ∧
   post_login (H := Reference.hasher) (H0 := Reference.codec) configured 1000
     (mkRequest (Some "Bearer nonsense") {[ "username" := "alice" ]} (Some 3)) two_users =
   post_login (H := Reference.hasher) (H0 := Reference.codec) configured 1000
     (mkRequest None {[ "username" := "alice" ]} None) two_users) ∧
  get_getUser (H0 := Reference.codec) configured 2000
    (mkRequest (Some ("Bearer " +:+ bob_token)) {[ "username" := "carol" ]} (Some 9))
    two_users =
  get_getUser (H0 := Reference.codec) configured 2000
    (bearer ("Bearer " +:+ bob_token)) two_users.
Proof.
  split.
  - apply (proj1 (routes_read_only_their_input (H := Reference.hasher)
                    (H0 := Reference.codec) configured "salt" 1000
                    (mkRequest (Some "Bearer nonsense") {[ "username" := "alice" ]} (Some 3))
                    (mkRequest None {[ "username" := "alice" ]} None) two_users)).
    reflexivity.
  - apply (proj2 (routes_read_only_their_input (H := Reference.hasher)
                    (H0 := Reference.codec) configured "salt" 2000
                    (mkRequest (Some ("Bearer " +:+ bob_token))
                       {[ "username" := "carol" ]} (Some 9))
                    (bearer ("Bearer " +:+ bob_token)) two_users)).
    reflexivity.
Defined.


Lemma revisions_agree_example :
  Legacy.start configured = start configured ∧
  Legacy.authenticateJWT (H0 := Reference.codec) configured 2000 open_door
    (bearer ("Bearer " +:+ bob_token)) two_users =
    authenticateJWT (H0 := Reference.codec) configured 2000 open_door
      (bearer ("Bearer " +:+ bob_token)) two_users ∧
  Legacy.getUser (bearer ("Bearer " +:+ bob_token)) two_users =
    getUser configured (bearer ("Bearer " +:+ bob_token)) two_users ∧
  fst (Legacy.post_register (H := Reference.hasher) "salt"
         (bearer ("Bearer " +:+ bob_token)) two_users) =
    fst (post_register (H := Reference.hasher) configured "salt"
           (bearer ("Bearer " +:+ bob_token)) two_users) ∧
  db (snd (Legacy.post_register (H := Reference.hasher) "salt"
             (bearer ("Bearer " +:+ bob_token)) two_users)) =
    db (snd (post_register (H := Reference.hasher) configured "salt"
               (bearer ("Bearer " +:+ bob_token)) two_users)) ∧
  fst (Legacy.post_login (H := Reference.hasher) (H0 := Reference.codec)
         configured 2000 (bearer ("Bearer " +:+ bob_token)) two_users) =
    fst (post_login (H := Reference.hasher) (H0 := Reference.codec)
           configured 2000 (bearer ("Bearer " +:+ bob_token)) two_users) ∧
  db (snd (Legacy.post_login (H := Reference.hasher) (H0 := Reference.codec)
             configured 2000 (bearer ("Bearer " +:+ bob_token)) two_users)) =
    db (snd (post_login (H := Reference.hasher) (H0 := Reference.codec)
               configured 2000 (bearer ("Bearer " +:+ bob_token)) two_users)).
Proof.
  apply (revisions_agree (H := Reference.hasher) (H0 := Reference.codec)
           configured "salt" 2000 open_door (bearer ("Bearer " +:+ bob_token))
           two_users eq_refl eq_refl).
Defined.

(** *** The contact route and the CORS check *)

Definition mail_configured : mail_env :=
  mkMailEnv (Some "SG.key") (Some "me@portfolio.dev").

Definition mail_without_key : mail_env :=
  mkMailEnv None (Some "me@portfolio.dev").

Definition mail_without_sender : mail_env :=
  mkMailEnv (Some "SG.key") None.

(** A provider that accepts everything but mail to one address. *)
Definition provider (msg : mail) : delivery :=
  if bool_decide (mail_to msg = Some "bounce@x.com")
  then Failed (Some "recipient refused")
  else Delivered.

Definition enquiry (to : string) : option (gmap string string) :=
  Some {[ "to" := to; "subject" := "Hello"; "body" := "A question";
          "replyTo" := "" ]}.

(** The request of the specification's example: only [to]. *)
Definition only_to : option (gmap string string) :=
  Some {[ "to" := "b@x.com" ]}.

Definition idle : mailer := mkMailer [] [].

Lemma contact_missing_fields_example :
  contact_send mail_configured provider only_to idle =
    (reply_error 400 "Missing fields", idle) ∧
  legacy_contact_send mail_configured provider None idle =
    (reply_error 400 "Missing fields", idle).
Proof.
  split.
  - apply (proj1 (contact_missing_fields mail_configured provider only_to idle
                    eq_refl)).
  - apply (proj2 (contact_missing_fields mail_configured provider None idle
                    eq_refl)).
Defined.

Lemma contact_unconfigured_example :
  contact_send mail_without_key provider (enquiry "b@x.com") idle =
    (reply_error 503 "Email not configured", idle) ∧
  contact_send mail_without_sender provider (enquiry "b@x.com") idle =
    (reply_error 503 "MAIL_FROM not configured", idle).
Proof.
  split.
  - apply (proj1 (contact_unconfigured mail_without_key provider
                    (enquiry "b@x.com") idle eq_refl)).
    reflexivity.
  - apply (proj2 (contact_unconfigured mail_without_sender provider
                    (enquiry "b@x.com") idle eq_refl));
      reflexivity.
Defined.

Lemma contact_delivery_example :
  contact_send mail_configured provider (enquiry "b@x.com") idle =
    (mkReply 200 (Json [("ok", FBool true)]),
     mkMailer [mkMail (Some "b@x.com") (Some "me@portfolio.dev")
                 (Some "Hello") (Some "A question") None] []) ∧
  contact_send mail_configured provider (enquiry "bounce@x.com") idle =
    (mkReply 500 (Json [("error", FString "mail_failed");
                        ("details", FString "recipient refused")]),
     mkMailer [] [LoggedBody "recipient refused"]).
Proof.
  split.
  - etrans;
      [apply (proj1 (contact_delivery mail_configured provider (enquiry "b@x.com")
                       idle eq_refl eq_refl eq_refl)); reflexivity
      |reflexivity].
  - etrans;
      [apply (proj1 (proj2 (contact_delivery mail_configured provider
                       (enquiry "bounce@x.com") idle eq_refl eq_refl eq_refl))
                "recipient refused"); [reflexivity|discriminate]
      |reflexivity].
Defined.

Lemma outbox_holds_deliverable_mail_example :
  Forall (deliverable mail_configured)
    (outbox (contact_run mail_configured provider
               [enquiry "b@x.com"; only_to; enquiry "bounce@x.com"; None;
                enquiry "c@x.com"] idle)).
Proof.
  apply (proj2 (outbox_holds_deliverable_mail mail_configured provider
                  [enquiry "b@x.com"; only_to; enquiry "bounce@x.com"; None;
                   enquiry "c@x.com"] None idle)).
  constructor.
Defined.

Lemma contact_revisions_agree_example :
  code (fst (legacy_contact_send mail_configured provider (enquiry "bounce@x.com") idle)) =
    code (fst (contact_send mail_configured provider (enquiry "bounce@x.com") idle)) ∧
  outbox (snd (legacy_contact_send mail_configured provider (enquiry "bounce@x.com") idle)) =
    outbox (snd (contact_send mail_configured provider (enquiry "bounce@x.com") idle)) ∧
  fst (legacy_contact_send mail_configured provider (enquiry "b@x.com") idle) =
    fst (contact_send mail_configured provider (enquiry "b@x.com") idle).
Proof.
  split; [|split].
  - apply (proj1 (contact_revisions_agree mail_configured provider
                    (enquiry "bounce@x.com") idle eq_refl eq_refl)).
  - apply (proj1 (proj2 (contact_revisions_agree mail_configured provider
                    (enquiry "bounce@x.com") idle eq_refl eq_refl))).
  - apply (proj2 (proj2 (contact_revisions_agree mail_configured provider
                    (enquiry "b@x.com") idle eq_refl eq_refl))).
    discriminate.
Defined.

Lemma cors_origin_allowed_example :
  cors_origin (Some "https://portfolio.dev") (Some "https://portfolio.dev") = Allowed ∧
  cors_origin (Some "") (Some "http://localhost:5173") = Allowed ∧
  cors_origin None (Some "https://evil.example") = NotAllowed "Not allowed by CORS".
Proof.
  split; [|split].
  - apply (proj1 (cors_origin_allowed (Some "https://portfolio.dev")
                    (Some "https://portfolio.dev"))).
    right. right. split; reflexivity.
  - apply (proj1 (cors_origin_allowed (Some "") (Some "http://localhost:5173"))).
    right. left. reflexivity.
  - apply (proj2 (cors_origin_allowed None (Some "https://evil.example"))).
    discriminate.
Defined.

(** ** Login on a store with distinct usernames *)

Section accounts.
Context `{PasswordHasher} `{TokenCodec}.
Variable e : process_env.

Lemma addressed_unique (req : request) (docs : list user) (u : user) :
  NoDup (username <$> docs) → u ∈ docs →
  req_body req !! "username" = Some (username u) →
  User.first_match (addressed req) docs = Some u.
Proof.
  intros Hnd Hu Hname.
  destruct (User.first_match (addressed req) docs) as [x|] eqn:Hf.
  - apply first_match_Some in Hf as [Hx Hax].
    unfold addressed, User.named in Hax. rewrite Hname in Hax. simpl in Hax.
    apply bool_decide_eq_true in Hax. f_equal.
    apply list_elem_of_lookup in Hx as [i Hi], Hu as [j Hj].
    assert (i = j) as ->; [|congruence].
    eapply NoDup_lookup; [exact Hnd| |]; rewrite list_lookup_fmap.
    + by rewrite Hi.
    + rewrite Hj. simpl. by rewrite Hax.
  - rewrite first_match_None in Hf. specialize (Hf u Hu).
    unfold addressed, User.named in Hf. rewrite Hname in Hf. simpl in Hf.
    by rewrite bool_decide_eq_true_2 in Hf.
Qed.

(** X18. On a configured server whose stored usernames are distinct, a
    login that names a stored user with some password succeeds exactly
    when [bcrypt.compare] accepts that password against the hash stored
    for that user: the answer is then 200 with a token for that user's
    identifier, username and email, and 400 "Invalid credentials"
    otherwise; the world is unchanged either way. *)
Theorem login_decided_by_stored_hash
  (now : N) (req : request) (w : world) (u : user) (pass : string) :
  truthy (MONGO_URI e) = true → secret_key e ≠ EmptyString →
  NoDup (username <$> db w) → u ∈ db w →
  req_body req !! "username" = Some (username u) →
  req_body req !! "password" = Some pass →
  post_login e now req w =
    (if hash_matches pass (password u)
     then mkResponse 200
            [("token", JString (encode (mkPayload (_id u) (username u) (email u))
                                  (secret_key e) now one_hour));
             ("userID", JObjectId (_id u))]
     else json_error 400 "Invalid credentials", w).
Proof.
  intros Hm Hs Hnd Hu Hname Hp.
  pose proof (addressed_unique req (db w) u Hnd Hu Hname) as Hf.
  destruct (hash_matches pass (password u)) eqn:Hc.
  - by apply login_issues_token with (pass := pass).
  - by apply login_wrong_password with (u := u) (pass := pass).
Qed.

End accounts.

Lemma login_decided_by_stored_hash_example :
  post_login (H := Reference.hasher) (H0 := Reference.codec) configured 1000
    (form "carol" "swordfish" "") two_users =
    (mkResponse 200
       [("token", JString (Reference.reference_encode
                             (mkPayload 9 "carol" "c@x.com") "s3cret" 1000 one_hour));
        ("userID", JObjectId 9)], two_users) ∧
  post_login (H := Reference.hasher) (H0 := Reference.codec) configured 1000
    (form "carol" "hunter2" "") two_users =
    (json_error 400 "Invalid credentials", two_users).
Proof.
  split.
  - etrans;
      [apply (login_decided_by_stored_hash (H := Reference.hasher)
                (H0 := Reference.codec) configured 1000
                (form "carol" "swordfish" "") two_users carol "swordfish");
         [reflexivity|discriminate
         |apply (bool_decide_unpack (NoDup _)); vm_compute; exact I
         |apply list_elem_of_further, list_elem_of_here|reflexivity|reflexivity]
      |reflexivity].
  - etrans;
      [apply (login_decided_by_stored_hash (H := Reference.hasher)
                (H0 := Reference.codec) configured 1000
                (form "carol" "hunter2" "") two_users carol "hunter2");
         [reflexivity|discriminate
         |apply (bool_decide_unpack (NoDup _)); vm_compute; exact I
         |apply list_elem_of_further, list_elem_of_here|reflexivity|reflexivity]
      |reflexivity].
Defined.
